(** * whoop_client: OAuth2 token lifecycle and cursor pagination

    A shallow embedding of [src/whoop_client/auth.py] ([OAuth2Handler]) and
    [src/whoop_client/client.py] ([WhoopClient]).

    Conventions of the embedding.
    - A Python [str] is a [string]: the sequence of bytes of its UTF-8
      encoding (what [urllib.parse.quote] works on).
    - A [datetime] produced by [datetime.now(timezone.utc)] is an [Instant]:
      the number of microseconds since 0001-01-01T00:00:00 UTC, the
      resolution and the origin of Python's [datetime].  Python refuses
      instants outside years 1..9999 and time spans beyond 999999999 days
      with [OverflowError]; both checks are written out.
    - Methods are computations in the monad [M Self]: they read and update
      the receiver [Self] and the outside [World] (clock, network), and end
      in a value or in a raised exception.  An exception keeps whatever the
      method had already assigned, as in Python.
    - Local computation takes no time; the clock advances with the network. *)

From Stdlib Require Import ZArith List String Ascii Bool Lia Floats.
From Stdlib Require Import Decimal DecimalString DecimalPos DecimalZ.
Import ListNotations.
Local Open Scope string_scope.
Local Open Scope Z_scope.

(** ** Python truthiness *)

(** [bool(s)] for a [str]: false exactly for the empty string. *)
Definition truthy (s : string) : bool :=
  match s with EmptyString => false | String _ _ => true end.

(** [bool(o)] for an [Optional[str]]: [None] and [""] are falsy. *)
Definition truthy_opt (o : option string) : bool :=
  match o with Some s => truthy s | None => false end.

(** ** Dictionaries with insertion order (Python [dict]) *)

Section Dict.
Context {V : Type}.

(** [d[k]] as [d.get(k)]. *)
Fixpoint dict_get (k : string) (d : list (string * V)) : option V :=
  match d with
  | [] => None
  | (k', v) :: r => if String.eqb k k' then Some v else dict_get k r
  end.

(** [d[k] = v]: an existing key keeps its place, a new key goes last. *)
Fixpoint dict_set (k : string) (v : V) (d : list (string * V)) : list (string * V) :=
  match d with
  | [] => [(k, v)]
  | (k', v') :: r =>
      if String.eqb k k' then (k', v) :: r else (k', v') :: dict_set k v r
  end.
End Dict.

(** ** [urllib.parse]: [quote], [quote_plus], [urlencode] *)

Module urllib.

Definition in_range (lo hi n : N) : bool := (N.leb lo n && N.leb n hi)%bool.

(** [_ALWAYS_SAFE]: ASCII letters, digits and [_.-~]. *)
Definition always_safe (c : ascii) : bool :=
  let n := N_of_ascii c in
  (in_range 65 90 n || in_range 97 122 n || in_range 48 57 n
   || N.eqb n 95 || N.eqb n 46 || N.eqb n 45 || N.eqb n 126)%bool.

(** One upper-case hexadecimal digit, as in ['%{:02X}'.format]. *)
Definition hex_digit (n : N) : ascii :=
  if N.ltb n 10 then ascii_of_N (48 + n) else ascii_of_N (55 + n).

(** The quoter of one byte: itself when safe, [%XX] otherwise. *)
Definition quoter (safe : list ascii) (c : ascii) : string :=
  if (always_safe c || existsb (Ascii.eqb c) safe)%bool
  then String c EmptyString
  else let n := N_of_ascii c in
       String "%" (String (hex_digit (N.div n 16))
                          (String (hex_digit (N.modulo n 16)) EmptyString)).

(** [quote_from_bytes(bs, safe)]: the quoted bytes, joined. *)
Fixpoint quote_from_bytes (safe : list ascii) (bs : string) : string :=
  match bs with
  | EmptyString => EmptyString
  | String c r => quoter safe c ++ quote_from_bytes safe r
  end.

(** [quote(string, safe)] on a [str]: encode as UTF-8, then quote. *)
Definition quote (safe : list ascii) (s : string) : string :=
  quote_from_bytes safe s.

Fixpoint contains (c : ascii) (s : string) : bool :=
  match s with
  | EmptyString => false
  | String c' r => (Ascii.eqb c c' || contains c r)%bool
  end.

(** [s.replace(a, b)] for single characters. *)
Fixpoint replace (a b : ascii) (s : string) : string :=
  match s with
  | EmptyString => EmptyString
  | String c r => String (if Ascii.eqb c a then b else c) (replace a b r)
  end.

(** [quote_plus(string, safe='')]. *)
Definition quote_plus (s : string) : string :=
  if negb (contains " " s) then quote [] s
  else replace " " "+" (quote [" "%char] s).

(** [urlencode(query)] for a dict of [str] to [str]. *)
Definition urlencode (query : list (string * string)) : string :=
  String.concat "&"
    (map (fun kv => quote_plus (fst kv) ++ "=" ++ quote_plus (snd kv)) query).

(** Reading a query string back: its fields, split at every [&]. *)
Fixpoint split_on (sep : ascii) (s : string) : list string :=
  match s with
  | EmptyString => [EmptyString]
  | String c r =>
      if Ascii.eqb c sep then EmptyString :: split_on sep r
      else match split_on sep r with
           | [] => [String c EmptyString]
           | f :: fs => String c f :: fs
           end
  end.

(** The key of a field [key=value]: what stands before the first [=]. *)
Fixpoint field_key (f : string) : string :=
  match f with
  | EmptyString => EmptyString
  | String c r => if Ascii.eqb c "=" then EmptyString else String c (field_key r)
  end.

(** The keys of a non-empty query string, in order. *)
Definition query_keys (q : string) : list string :=
  map field_key (split_on "&" q).

End urllib.

(** ** JSON values, as [response.json()] returns them *)

#[local] Unset Elimination Schemes.
Inductive Json : Type :=
| JNull
| JBool (b : bool)
| JInt (z : Z)
| JFloat (x : float)
| JStr (s : string)
| JArr (items : list Json)
| JObj (fields : list (string * Json)).
#[local] Set Elimination Schemes.

(** ** Exceptions *)

Inductive Exn : Type :=
| ValueError (msg : string)
| HTTPStatusError (status : Z)
| RequestError
| JSONDecodeError
| TypeError
| ValidationError
| OverflowError.

Inductive Outcome (A : Type) : Type :=
| Return (a : A)
| Raise (e : Exn).
Arguments Return {A} a.
Arguments Raise {A} e.

(** ** [datetime] and [timedelta] *)

Definition Instant := Z.

Definition usec_per_sec : Z := 1000000.
Definition sec_per_day : Z := 86400.

(** [timedelta.max.days]. *)
Definition max_delta_days : Z := 999999999.

(** [datetime.max.toordinal()]: the days of years 1..9999. *)
Definition max_ordinal : Z := 3652059.

(** One past [datetime.max], in microseconds. *)
Definition datetime_end : Z := max_ordinal * sec_per_day * usec_per_sec.

(** [timedelta(seconds=n)], in microseconds; [OverflowError] when the
    normalised day count leaves [-999999999, 999999999]. *)
Definition timedelta_seconds (n : Z) : Outcome Z :=
  let days := n / sec_per_day in
  if ((- max_delta_days <=? days) && (days <=? max_delta_days))%bool
  then Return (n * usec_per_sec)
  else Raise OverflowError.

(** [t + d]; [OverflowError] when the sum leaves years 1..9999. *)
Definition datetime_add (t : Instant) (d : Z) : Outcome Instant :=
  let r := t + d in
  if ((0 <=? r) && (r <? datetime_end))%bool then Return r else Raise OverflowError.

(** ** The outside world: clock and network *)

(** A query-parameter value: [min(limit, 25)] is an [int], the others [str]. *)
Inductive PVal : Type :=
| PInt (z : Z)
| PStr (s : string).

(** One call handed to [httpx]: [client.request(...)] or [client.post(...)].
    [with_timeout] is the timeout given to [httpx.AsyncClient], if any. *)
Record HttpCall : Type := {
  method : string;
  url : string;
  headers : list (string * string);
  params : option (list (string * PVal));
  json : option Json;
  data : option (list (string * string));
  with_timeout : option float
}.

(** An [httpx.Response]: its status and what [.json()] gives ([None] when
    the body is not JSON). *)
Record Response : Type := {
  status_code : Z;
  body : option Json
}.

(** What the transport does with a call: a response, or a transport failure
    ([httpx.RequestError]); either takes [elapsed] microseconds. *)
Inductive Reply : Type :=
| Replied (r : Response) (elapsed : Z)
| Failed (elapsed : Z).

(** The world a client runs in.  [network] is the server: it answers a call
    knowing every call made before it.  [trace] is the log of calls made. *)
Record World : Type := {
  clock : Instant;
  trace : list HttpCall;
  network : list HttpCall -> HttpCall -> Reply
}.

Definition after_call (w : World) (c : HttpCall) (elapsed : Z) : World :=
  {| clock := clock w + elapsed; trace := trace w ++ [c]; network := network w |}.

(** ** The monad of methods *)

Definition M (Self A : Type) : Type := Self -> World -> Outcome A * Self * World.

Section Monad.
Context {Self : Type}.

Definition ret {A} (a : A) : M Self A := fun s w => (Return a, s, w).

Definition raise {A} (e : Exn) : M Self A := fun s w => (Raise e, s, w).

Definition bind {A B} (m : M Self A) (k : A -> M Self B) : M Self B :=
  fun s w =>
    let '(o, s', w') := m s w in
    match o with
    | Return a => k a s' w'
    | Raise e => (Raise e, s', w')
    end.

Definition get_self : M Self Self := fun s w => (Return s, s, w).

Definition modify (f : Self -> Self) : M Self unit := fun s w => (Return tt, f s, w).

Definition lift {A} (o : Outcome A) : M Self A := fun s w => (o, s, w).

(** [datetime.now(timezone.utc)]. *)
Definition datetime_now : M Self Instant := fun s w => (Return (clock w), s, w).

(** One call through the transport. *)
Definition send (c : HttpCall) : M Self Response :=
  fun s w =>
    match network w (trace w) c with
    | Replied r elapsed => (Return r, s, after_call w c elapsed)
    | Failed elapsed => (Raise RequestError, s, after_call w c elapsed)
    end.

(** [response.is_success]. *)
Definition is_success (r : Response) : bool :=
  ((200 <=? status_code r) && (status_code r <=? 299))%bool.

(** [response.raise_for_status()]. *)
Definition raise_for_status (r : Response) : M Self unit :=
  if is_success r then ret tt else raise (HTTPStatusError (status_code r)).

(** [response.json()]. *)
Definition response_json (r : Response) : M Self Json :=
  match body r with
  | Some j => ret j
  | None => raise JSONDecodeError
  end.
End Monad.

Declare Scope monad_scope.
Delimit Scope monad_scope with monad.
Notation "x <- m ;; k" := (bind m (fun x => k))
  (at level 61, m at next level, right associativity) : monad_scope.
Notation "m ;;; k" := (bind m (fun _ => k))
  (at level 61, right associativity) : monad_scope.
Local Open Scope monad_scope.

(** ** [TokenResponse] *)

Module TokenResponse.
Record t : Type := {
  access_token : string;
  token_type : string;
  expires_in : Z;
  refresh_token : option string;
  scope : option string
}.
End TokenResponse.

(** ** [PaginatedResponse] and its four subclasses *)

Module PaginatedResponse.
Record t (R : Type) : Type := {
  records : list R;
  next_token : option string
}.
Arguments records {R} _.
Arguments next_token {R} _.
End PaginatedResponse.

(** ** [OAuth2Handler] (auth.py) *)

Record OAuth2Handler : Type := {
  client_id : string;
  client_secret : string;
  redirect_uri : string;
  auth_base_url : string;
  token_url : string;
  scopes : list string;
  _token_data : option TokenResponse.t;
  _token_expiry : option Instant
}.

(** [self._token_data = v]. *)
Definition set__token_data (v : option TokenResponse.t) (h : OAuth2Handler) : OAuth2Handler :=
  {| client_id := client_id h; client_secret := client_secret h;
     redirect_uri := redirect_uri h; auth_base_url := auth_base_url h;
     token_url := token_url h; scopes := scopes h;
     _token_data := v; _token_expiry := _token_expiry h |}.

(** [self._token_expiry = v]. *)
Definition set__token_expiry (v : option Instant) (h : OAuth2Handler) : OAuth2Handler :=
  {| client_id := client_id h; client_secret := client_secret h;
     redirect_uri := redirect_uri h; auth_base_url := auth_base_url h;
     token_url := token_url h; scopes := scopes h;
     _token_data := _token_data h; _token_expiry := v |}.

Definition default_scopes : list string :=
  ["read:recovery"; "read:cycles"; "read:workout"; "read:sleep";
   "read:profile"; "read:body_measurement"].

(** [OAuth2Handler.__init__]; [scopes or [...]] takes the default for
    [None] and for the empty list. *)
Definition OAuth2Handler_init (client_id client_secret redirect_uri : string)
    (scopes : option (list string)) : OAuth2Handler :=
  {| client_id := client_id;
     client_secret := client_secret;
     redirect_uri := redirect_uri;
     auth_base_url := "https://api.prod.whoop.com/oauth/oauth2/auth";
     token_url := "https://api.prod.whoop.com/oauth/oauth2/token";
     scopes := match scopes with
               | Some (s :: l) => s :: l
               | Some [] | None => default_scopes
               end;
     _token_data := None;
     _token_expiry := None |}.

(** The [params] dict of [get_authorization_url]. *)
Definition authorization_params (h : OAuth2Handler) (state : option string)
    : list (string * string) :=
  let params := [("response_type", "code");
                 ("client_id", client_id h);
                 ("redirect_uri", redirect_uri h);
                 ("scope", String.concat " " (scopes h))] in
  match state with
  | Some st => if truthy st then dict_set "state" st params else params
  | None => params
  end.

(** [OAuth2Handler.get_authorization_url]. *)
Definition get_authorization_url (h : OAuth2Handler) (state : option string) : string :=
  auth_base_url h ++ "?" ++ urllib.urlencode (authorization_params h state).

(** [client.post(url, data=data)] on a fresh [httpx.AsyncClient()]. *)
Definition post {Self} (url : string) (data : list (string * string)) : M Self Response :=
  send {| method := "POST"; url := url; headers := []; params := None;
          json := None; data := Some data; with_timeout := None |}.

(** [OAuth2Handler._store_token]: the credential is assigned first, the
    expiry instant after it has been computed. *)
Definition _store_token (token_data : TokenResponse.t) : M OAuth2Handler unit :=
  modify (set__token_data (Some token_data)) ;;;
  now <- datetime_now ;;
  delta <- lift (timedelta_seconds (TokenResponse.expires_in token_data - 300)) ;;
  expiry <- lift (datetime_add now delta) ;;
  modify (set__token_expiry (Some expiry)).

(** The property [OAuth2Handler.access_token]. *)
Definition access_token (h : OAuth2Handler) : option string :=
  match _token_data h with
  | Some td => Some (TokenResponse.access_token td)
  | None => None
  end.

(** The property [OAuth2Handler.refresh_token]. *)
Definition refresh_token (h : OAuth2Handler) : option string :=
  match _token_data h with
  | Some td => TokenResponse.refresh_token td
  | None => None
  end.

(** [OAuth2Handler.is_token_expired]. *)
Definition is_token_expired : M OAuth2Handler bool :=
  h <- get_self ;;
  match _token_expiry h with
  | None => ret true
  | Some expiry => now <- datetime_now ;; ret (expiry <=? now)
  end.

(** [OAuth2Handler.set_tokens]. *)
Definition set_tokens (access_token refresh_token : string) (expires_in : Z)
    : M OAuth2Handler unit :=
  let token_data :=
    {| TokenResponse.access_token := access_token;
       TokenResponse.token_type := "bearer";
       TokenResponse.expires_in := expires_in;
       TokenResponse.refresh_token := Some refresh_token;
       TokenResponse.scope := None |} in
  _store_token token_data.

(** ** The validation library (pydantic) and the caller's [datetime]s

    The scalar validators of the library and the validators of the four
    resource models (the models package) are parameters: nothing below
    depends on which values they accept.  So are the [datetime] values a
    caller passes as filters, with their [isoformat()]. *)

Section Client.

Variable validate_str : Json -> option string.
Variable validate_int : Json -> option Z.

Variables Cycle Sleep Recovery WorkoutV2 : Type.
Variable validate_Cycle : Json -> option Cycle.
Variable validate_Sleep : Json -> option Sleep.
Variable validate_Recovery : Json -> option Recovery.
Variable validate_WorkoutV2 : Json -> option WorkoutV2.

Variable datetime : Type.
Variable isoformat : datetime -> string.

Variables UserBasicProfile UserBodyMeasurement : Type.
Variable validate_UserBasicProfile : Json -> option UserBasicProfile.
Variable validate_UserBodyMeasurement : Json -> option UserBodyMeasurement.

(** A [uuid.UUID] and its [str()]. *)
Variable UUID : Type.
Variable uuid_str : UUID -> string.

(** A required field, [Field(...)]. *)
Definition required {A} (v : Json -> option A) (k : string)
    (kwargs : list (string * Json)) : option A :=
  match dict_get k kwargs with
  | Some j => v j
  | None => None
  end.

(** An [Optional[...]] field with default [None]. *)
Definition optional {A} (v : Json -> option A) (k : string)
    (kwargs : list (string * Json)) : option (option A) :=
  match dict_get k kwargs with
  | None | Some JNull => Some None
  | Some j => option_map Some (v j)
  end.

(** A [List[...]] field with [default_factory=list]. *)
Definition list_field {A} (v : Json -> option A) (k : string)
    (kwargs : list (string * Json)) : option (list A) :=
  match dict_get k kwargs with
  | None => Some []
  | Some (JArr items) =>
      fold_right (fun j acc =>
                    match v j, acc with
                    | Some a, Some l => Some (a :: l)
                    | _, _ => None
                    end) (Some []) items
  | Some _ => None
  end.

(** The validation of [TokenResponse] from keyword arguments. *)
Definition TokenResponse_validate (kwargs : list (string * Json))
    : option TokenResponse.t :=
  match required validate_str "access_token" kwargs,
        required validate_str "token_type" kwargs,
        required validate_int "expires_in" kwargs,
        optional validate_str "refresh_token" kwargs,
        optional validate_str "scope" kwargs with
  | Some a, Some t, Some e, Some r, Some s =>
      Some {| TokenResponse.access_token := a;
              TokenResponse.token_type := t;
              TokenResponse.expires_in := e;
              TokenResponse.refresh_token := r;
              TokenResponse.scope := s |}
  | _, _, _, _, _ => None
  end.

(** A model built from [j] unpacked as keyword arguments: [TypeError]
    unless [j] is a mapping, [ValidationError] when the model refuses it. *)
Definition construct {Self A} (validate : list (string * Json) -> option A)
    (j : Json) : M Self A :=
  match j with
  | JObj kwargs =>
      match validate kwargs with
      | Some a => ret a
      | None => raise ValidationError
      end
  | _ => raise TypeError
  end.

(** The validation of a [PaginatedResponse] subclass with records [R]. *)
Definition PaginatedResponse_validate {R} (validate_R : Json -> option R)
    (kwargs : list (string * Json)) : option (PaginatedResponse.t R) :=
  match list_field validate_R "records" kwargs,
        optional validate_str "next_token" kwargs with
  | Some rs, Some nt =>
      Some {| PaginatedResponse.records := rs; PaginatedResponse.next_token := nt |}
  | _, _ => None
  end.

(** [OAuth2Handler.exchange_code]. *)
Definition exchange_code (code : string) : M OAuth2Handler TokenResponse.t :=
  self <- get_self ;;
  response <- post (token_url self)
                [("grant_type", "authorization_code");
                 ("code", code);
                 ("client_id", client_id self);
                 ("client_secret", client_secret self);
                 ("redirect_uri", redirect_uri self)] ;;
  raise_for_status response ;;;
  j <- response_json response ;;
  token_data <- construct TokenResponse_validate j ;;
  _store_token token_data ;;;
  ret token_data.

(** [OAuth2Handler.refresh_access_token]. *)
Definition refresh_access_token (refresh_token : string)
    : M OAuth2Handler TokenResponse.t :=
  self <- get_self ;;
  response <- post (token_url self)
                [("grant_type", "refresh_token");
                 ("refresh_token", refresh_token);
                 ("client_id", client_id self);
                 ("client_secret", client_secret self)] ;;
  raise_for_status response ;;;
  j <- response_json response ;;
  token_data <- construct TokenResponse_validate j ;;
  _store_token token_data ;;;
  ret token_data.

(** ** [WhoopClient] (client.py): the record *)

Record WhoopClient : Type := {
  base_url : string;
  auth : OAuth2Handler;
  timeout : float
}.

Definition set_auth (h : OAuth2Handler) (c : WhoopClient) : WhoopClient :=
  {| base_url := base_url c; auth := h; timeout := timeout c |}.

(** A method of [self.auth] run from a method of the client. *)
Definition with_auth {A} (m : M OAuth2Handler A) : M WhoopClient A :=
  fun c w => let '(o, h', w') := m (auth c) w in (o, set_auth h' c, w').

(** [WhoopClient.__init__]; the tokens are stored only when both are truthy,
    with [set_tokens]'s default [expires_in=3600]. *)
Definition WhoopClient_init (client_id client_secret redirect_uri : string)
    (access_token refresh_token : option string) (scopes : option (list string))
    (timeout : float) (w : World) : Outcome WhoopClient * World :=
  let self := {| base_url := "https://api.prod.whoop.com/developer";
                 auth := OAuth2Handler_init client_id client_secret redirect_uri scopes;
                 timeout := timeout |} in
  match access_token, refresh_token with
  | Some a, Some r =>
      if (truthy a && truthy r)%bool then
        let '(o, self', w') := with_auth (set_tokens a r 3600) self w in
        match o with
        | Return _ => (Return self', w')
        | Raise e => (Raise e, w')
        end
      else (Return self, w)
  | _, _ => (Return self, w)
  end.

Definition no_access_token : string :=
  "No access token available. Please authenticate first.".

(** [WhoopClient._request]. *)
Definition _request (method endpoint : string)
    (params : option (list (string * PVal))) (json : option Json)
    : M WhoopClient Response :=
  expired <- with_auth is_token_expired ;;
  self <- get_self ;;
  (if (expired && truthy_opt (refresh_token (auth self)))%bool
   then match refresh_token (auth self) with
        | Some rt => with_auth (refresh_access_token rt) ;;; ret tt
        | None => ret tt
        end
   else ret tt) ;;;
  self <- get_self ;;
  match access_token (auth self) with
  | Some tok =>
      if truthy tok then
        let headers := [("Authorization", "Bearer " ++ tok)] in
        let url := base_url self ++ endpoint in
        response <- send {| method := method; url := url; headers := headers;
                            params := params; json := json; data := None;
                            with_timeout := Some (timeout self) |} ;;
        raise_for_status response ;;;
        ret response
      else raise (ValueError no_access_token)
  | None => raise (ValueError no_access_token)
  end.

(** ** Collection accessors *)

(** [WhoopClient.get_cycle_collection]. *)
Definition get_cycle_collection (limit : Z) (start end_ : option datetime)
    (next_token : option string) : M WhoopClient (PaginatedResponse.t Cycle) :=
  let params := [("limit", PInt (Z.min limit 25))] in
  let params := match start with
                | Some d => dict_set "start" (PStr (isoformat d)) params
                | None => params
                end in
  let params := match end_ with
                | Some d => dict_set "end" (PStr (isoformat d)) params
                | None => params
                end in
  let params := match next_token with
                | Some t => if truthy t then dict_set "nextToken" (PStr t) params
                            else params
                | None => params
                end in
  response <- _request "GET" "/v2/cycle" (Some params) None ;;
  j <- response_json response ;;
  construct (PaginatedResponse_validate validate_Cycle) j.

(** [WhoopClient.get_recovery_collection]. *)
Definition get_recovery_collection (limit : Z) (start end_ : option datetime)
    (next_token : option string) : M WhoopClient (PaginatedResponse.t Recovery) :=
  let params := [("limit", PInt (Z.min limit 25))] in
  let params := match start with
                | Some d => dict_set "start" (PStr (isoformat d)) params
                | None => params
                end in
  let params := match end_ with
                | Some d => dict_set "end" (PStr (isoformat d)) params
                | None => params
                end in
  let params := match next_token with
                | Some t => if truthy t then dict_set "nextToken" (PStr t) params
                            else params
                | None => params
                end in
  response <- _request "GET" "/v2/activity/recovery" (Some params) None ;;
  j <- response_json response ;;
  construct (PaginatedResponse_validate validate_Recovery) j.

(** [WhoopClient.get_sleep_collection]. *)
Definition get_sleep_collection (limit : Z) (start end_ : option datetime)
    (next_token : option string) : M WhoopClient (PaginatedResponse.t Sleep) :=
  let params := [("limit", PInt (Z.min limit 25))] in
  let params := match start with
                | Some d => dict_set "start" (PStr (isoformat d)) params
                | None => params
                end in
  let params := match end_ with
                | Some d => dict_set "end" (PStr (isoformat d)) params
                | None => params
                end in
  let params := match next_token with
                | Some t => if truthy t then dict_set "nextToken" (PStr t) params
                            else params
                | None => params
                end in
  response <- _request "GET" "/v2/activity/sleep" (Some params) None ;;
  j <- response_json response ;;
  construct (PaginatedResponse_validate validate_Sleep) j.

(** [WhoopClient.get_workout_collection]. *)
Definition get_workout_collection (limit : Z) (start end_ : option datetime)
    (next_token : option string) : M WhoopClient (PaginatedResponse.t WorkoutV2) :=
  let params := [("limit", PInt (Z.min limit 25))] in
  let params := match start with
                | Some d => dict_set "start" (PStr (isoformat d)) params
                | None => params
                end in
  let params := match end_ with
                | Some d => dict_set "end" (PStr (isoformat d)) params
                | None => params
                end in
  let params := match next_token with
                | Some t => if truthy t then dict_set "nextToken" (PStr t) params
                            else params
                | None => params
                end in
  response <- _request "GET" "/v2/activity/workout" (Some params) None ;;
  j <- response_json response ;;
  construct (PaginatedResponse_validate validate_WorkoutV2) j.

(** ** Single-item accessors *)

(** [str(n)] of an [int], as an f-string puts it into a path. *)
Definition str_of_int (n : Z) : string := NilZero.string_of_int (Z.to_int n).

(** An identifier given as [Union[str, UUID]], and its [str()]. *)
Inductive Identifier : Type :=
| IdStr (s : string)
| IdUUID (u : UUID).

Definition str_of_id (i : Identifier) : string :=
  match i with
  | IdStr s => s
  | IdUUID u => uuid_str u
  end.

(** A resource model built from keyword arguments is validated as the
    model validates the same mapping inside a page. *)
Definition as_kwargs {A} (validate : Json -> option A)
    (kwargs : list (string * Json)) : option A :=
  validate (JObj kwargs).

(** [WhoopClient.get_cycle_by_id]. *)
Definition get_cycle_by_id (cycle_id : Z) : M WhoopClient Cycle :=
  response <- _request "GET" ("/v2/cycle/" ++ str_of_int cycle_id) None None ;;
  j <- response_json response ;;
  construct (as_kwargs validate_Cycle) j.

(** [WhoopClient.get_sleep_for_cycle]. *)
Definition get_sleep_for_cycle (cycle_id : Z) : M WhoopClient Sleep :=
  response <- _request "GET" ("/v2/cycle/" ++ str_of_int cycle_id ++ "/sleep")
                None None ;;
  j <- response_json response ;;
  construct (as_kwargs validate_Sleep) j.

(** [WhoopClient.get_recovery_for_cycle]. *)
Definition get_recovery_for_cycle (cycle_id : Z) : M WhoopClient Recovery :=
  response <- _request "GET"
                ("/v2/activity/recovery/cycle/" ++ str_of_int cycle_id ++ "/recovery")
                None None ;;
  j <- response_json response ;;
  construct (as_kwargs validate_Recovery) j.

(** [WhoopClient.get_sleep_by_id]. *)
Definition get_sleep_by_id (sleep_id : Identifier) : M WhoopClient Sleep :=
  let sleep_id_str := str_of_id sleep_id in
  response <- _request "GET" ("/v2/activity/sleep/" ++ sleep_id_str) None None ;;
  j <- response_json response ;;
  construct (as_kwargs validate_Sleep) j.

(** [WhoopClient.get_body_measurement]. *)
Definition get_body_measurement : M WhoopClient UserBodyMeasurement :=
  response <- _request "GET" "/v2/user/measurement/body" None None ;;
  j <- response_json response ;;
  construct (as_kwargs validate_UserBodyMeasurement) j.

(** [WhoopClient.get_profile_basic]. *)
Definition get_profile_basic : M WhoopClient UserBasicProfile :=
  response <- _request "GET" "/v2/user/profile/basic" None None ;;
  j <- response_json response ;;
  construct (as_kwargs validate_UserBasicProfile) j.

(** [WhoopClient.get_workout_by_id]. *)
Definition get_workout_by_id (workout_id : Identifier) : M WhoopClient WorkoutV2 :=
  let workout_id_str := str_of_id workout_id in
  response <- _request "GET" ("/v2/activity/workout/" ++ workout_id_str) None None ;;
  j <- response_json response ;;
  construct (as_kwargs validate_WorkoutV2) j.

(** ** Pagination helpers: the async generators

    The four [iterate_*] generators have one body, over their own
    collection accessor.  A generator object is a state machine that the
    consumer resumes; [Gen] lists the places where its frame can stand. *)

Inductive Gen (R : Type) : Type :=
| AtFetch (next_token : option string)
    (* at the top of [while True], about to call the accessor *)
| InPage (rest : list R) (page_next_token : option string)
    (* inside [for x in response.records], [rest] still to be yielded *)
| Finished.
#[global] Arguments AtFetch {R} next_token.
#[global] Arguments InPage {R} rest page_next_token.
#[global] Arguments Finished {R}.

(** What one resumption does, seen from the consumer. *)
Inductive Event (R : Type) : Type :=
| Yield (r : R)          (* [yield r] *)
| Fetched                (* a page was fetched; the body goes on *)
| Advanced               (* [next_token = response.next_token]; the loop goes round *)
| StopAsyncIteration     (* the body has ended *)
| Thrown (e : Exn).      (* the body raised *)
#[global] Arguments Yield {R} r.
#[global] Arguments Fetched {R}.
#[global] Arguments Advanced {R}.
#[global] Arguments StopAsyncIteration {R}.
#[global] Arguments Thrown {R} e.

Section Iterate.
Context {R : Type}.
Variable get_collection :
  Z -> option datetime -> option datetime -> option string ->
  M WhoopClient (PaginatedResponse.t R).
Variables (start end_ : option datetime) (page_size : Z).

(** The body of [iterate_*], one transition at a time. *)
Definition resume (g : Gen R) (self : WhoopClient) (w : World)
    : Event R * Gen R * WhoopClient * World :=
  match g with
  | AtFetch next_token =>
      let '(o, self', w') := get_collection page_size start end_ next_token self w in
      match o with
      | Return response =>
          (Fetched,
           InPage (PaginatedResponse.records response)
                  (PaginatedResponse.next_token response), self', w')
      | Raise e => (Thrown e, Finished, self', w')
      end
  | InPage (r :: rest) nt => (Yield r, InPage rest nt, self, w)
  | InPage [] nt =>
      if negb (truthy_opt nt) then (StopAsyncIteration, Finished, self, w)
      else (Advanced, AtFetch nt, self, w)
  | Finished => (StopAsyncIteration, Finished, self, w)
  end.

End Iterate.

(** How a consumer's [async for] over a generator ends. *)
Inductive Ending (R : Type) : Type :=
| Exhausted            (* the generator ended *)
| Propagated (e : Exn) (* an exception came out of it *)
| Suspended (g : Gen R). (* the consumer stopped resuming it *)
#[global] Arguments Exhausted {R}.
#[global] Arguments Propagated {R} e.
#[global] Arguments Suspended {R} g.

(** [async for x in gen: acc.append(x)], for at most [fuel] transitions of
    the generator whose body is [step]. *)
Fixpoint consume {R}
    (step : Gen R -> WhoopClient -> World -> Event R * Gen R * WhoopClient * World)
    (fuel : nat) (g : Gen R) (acc : list R) (self : WhoopClient) (w : World)
    : list R * Ending R * WhoopClient * World :=
  match fuel with
  | O => (acc, Suspended g, self, w)
  | S fuel' =>
      let '(ev, g', self', w') := step g self w in
      match ev with
      | Yield r => consume step fuel' g' (acc ++ [r])%list self' w'
      | Fetched | Advanced => consume step fuel' g' acc self' w'
      | StopAsyncIteration => (acc, Exhausted, self', w')
      | Thrown e => (acc, Propagated e, self', w')
      end
  end.

(** [WhoopClient.iterate_cycles(start, end, page_size)] and its three
    siblings: the generator's transitions over [resume], each with its own
    collection accessor, from the initial frame [iterate_start]. *)
Definition iterate_cycles := resume get_cycle_collection.
Definition iterate_sleeps := resume get_sleep_collection.
Definition iterate_recoveries := resume get_recovery_collection.
Definition iterate_workouts := resume get_workout_collection.

(** A new generator: nothing has run, [next_token = None] comes first. *)
Definition iterate_start {R} : Gen R := AtFetch None.

(** ** The calls the client puts on the wire, named for the statements *)

(** The [POST] of [refresh_access_token(rt)]. *)
Definition refresh_call (h : OAuth2Handler) (rt : string) : HttpCall :=
  {| method := "POST"; url := token_url h; headers := []; params := None;
     json := None;
     data := Some [("grant_type", "refresh_token");
                   ("refresh_token", rt);
                   ("client_id", client_id h);
                   ("client_secret", client_secret h)];
     with_timeout := None |}.

(** The [POST] of [exchange_code(code)]. *)
Definition exchange_call (h : OAuth2Handler) (code : string) : HttpCall :=
  {| method := "POST"; url := token_url h; headers := []; params := None;
     json := None;
     data := Some [("grant_type", "authorization_code");
                   ("code", code);
                   ("client_id", client_id h);
                   ("client_secret", client_secret h);
                   ("redirect_uri", redirect_uri h)];
     with_timeout := None |}.

(** The resource call of [_request] under the bearer token [tok]. *)
Definition resource_call (self : WhoopClient) (tok method endpoint : string)
    (params : option (list (string * PVal))) (json : option Json) : HttpCall :=
  {| method := method; url := base_url self ++ endpoint;
     headers := [("Authorization", "Bearer " ++ tok)];
     params := params; json := json; data := None;
     with_timeout := Some (timeout self) |}.

(** The query parameters every collection accessor builds. *)
Definition collection_params (limit : Z) (start end_ : option datetime)
    (next_token : option string) : list (string * PVal) :=
  let params := [("limit", PInt (Z.min limit 25))] in
  let params := match start with
                | Some d => dict_set "start" (PStr (isoformat d)) params
                | None => params
                end in
  let params := match end_ with
                | Some d => dict_set "end" (PStr (isoformat d)) params
                | None => params
                end in
  match next_token with
  | Some t => if truthy t then dict_set "nextToken" (PStr t) params else params
  | None => params
  end.

(** The pair kept by the Token Store. *)
Definition token_store (h : OAuth2Handler) : option TokenResponse.t * option Instant :=
  (_token_data h, _token_expiry h).

(** The calls of [w'] made since [w]. *)
Definition calls_since (w w' : World) : list HttpCall :=
  skipn (List.length (trace w)) (trace w').

(** ** Concrete instances, for the examples *)

Definition strict_str (j : Json) : option string :=
  match j with JStr s => Some s | _ => None end.

Definition strict_int (j : Json) : option Z :=
  match j with JInt z => Some z | _ => None end.

(** A resource record kept as the JSON it came in. *)
Definition any_record (j : Json) : option Json := Some j.

(** A server that answers the [n]-th call of the session with the [n]-th
    reply of a script, and fails the transport once the script is over. *)
Definition scripted (script : list Reply) : list HttpCall -> HttpCall -> Reply :=
  fun history _ => nth (List.length history) script (Failed 0).

Definition ok_json (j : Json) : Reply :=
  Replied {| status_code := 200; body := Some j |} 1000.

(** 2026-11-04T00:00:00 UTC. *)
Definition t0 : Instant := 63929347200000000.

Definition world_of (script : list Reply) : World :=
  {| clock := t0; trace := []; network := scripted script |}.

Definition handler0 : OAuth2Handler :=
  OAuth2Handler_init "cid" "secret" "http://localhost:8000/callback" None.

(** A handler holding a credential [(a, r)] whose expiry instant is [e]. *)
Definition handler_with (a : string) (r : option string) (e : Instant) : OAuth2Handler :=
  set__token_expiry (Some e)
    (set__token_data
       (Some {| TokenResponse.access_token := a;
                TokenResponse.token_type := "bearer";
                TokenResponse.expires_in := 3600;
                TokenResponse.refresh_token := r;
                TokenResponse.scope := None |}) handler0).

Definition client_of (h : OAuth2Handler) : WhoopClient :=
  {| base_url := "https://api.prod.whoop.com/developer"; auth := h;
     timeout := 30%float |}.

Definition token_json (a : string) (e : Z) (r : option string) : Json :=
  JObj ([("access_token", JStr a); ("token_type", JStr "bearer"); ("expires_in", JInt e)]
        ++ match r with Some s => [("refresh_token", JStr s)] | None => [] end).

Definition page_fields (records : list Json) (next_token : Json)
    : list (string * Json) :=
  [("records", JArr records); ("next_token", next_token)].

Definition page_json (records : list Json) (next_token : Json) : Json :=
  JObj (page_fields records next_token).

(** A handler whose credential expired long ago, with a refresh token. *)
Definition stale_handler : OAuth2Handler :=
  handler_with "old_access" (Some "old_refresh") 0.

(** A handler whose credential is good for another hour. *)
Definition fresh_handler : OAuth2Handler :=
  handler_with "access" (Some "refresh") (t0 + 3600 * usec_per_sec).

Definition unauthorized : Reply :=
  Replied {| status_code := 401; body := None |} 1000.

Definition not_found : Reply :=
  Replied {| status_code := 404; body := None |} 1000.

Definition server_error : Reply :=
  Replied {| status_code := 500; body := None |} 1000.

(** The fields of a token response. *)
Definition token_fields (a : string) (e : Z) (r : string) : list (string * Json) :=
  [("access_token", JStr a); ("token_type", JStr "bearer"); ("expires_in", JInt e);
   ("refresh_token", JStr r)].

(** A world at [now] in which nothing has been called yet. *)
Definition world_at (now : Instant) (script : list Reply) : World :=
  {| clock := now; trace := []; network := scripted script |}.

(** The credential [set_tokens] builds. *)
Definition injected (a r : string) (e : Z) : TokenResponse.t :=
  {| TokenResponse.access_token := a;
     TokenResponse.token_type := "bearer";
     TokenResponse.expires_in := e;
     TokenResponse.refresh_token := Some r;
     TokenResponse.scope := None |}.

(** What both token exchanges do with the response they received. *)
Definition decode_and_store (response : Response) : M OAuth2Handler TokenResponse.t :=
  raise_for_status response ;;;
  j <- response_json response ;;
  token_data <- construct TokenResponse_validate j ;;
  _store_token token_data ;;;
  ret token_data.

(** The expiry instant of a credential issued at [now]. *)
Definition expiry_of (now : Instant) (td : TokenResponse.t) : Instant :=
  now + (TokenResponse.expires_in td - 300) * usec_per_sec.

(** What [is_token_expired] answers for handler [h] at instant [now]. *)
Definition expired_at (h : OAuth2Handler) (now : Instant) : bool :=
  match _token_expiry h with
  | None => true
  | Some expiry => expiry <=? now
  end.

(** The test that opens [_request]: expired, and a truthy refresh token. *)
Definition needs_refresh (h : OAuth2Handler) (w : World) : bool :=
  (expired_at h (clock w) && truthy_opt (refresh_token h))%bool.

(** The rest of [_request], from [if not self.auth.access_token] on. *)
Definition dispatch (method endpoint : string)
    (params : option (list (string * PVal))) (json : option Json)
    : M WhoopClient Response :=
  self <- get_self ;;
  match access_token (auth self) with
  | Some tok =>
      if truthy tok then
        response <- send (resource_call self tok method endpoint params json) ;;
        raise_for_status response ;;;
        ret response
      else raise (ValueError no_access_token)
  | None => raise (ValueError no_access_token)
  end.

(** The three operations that store a credential, when they return
    normally: from handler [h] in world [w] they store [td] and leave the
    handler [h'] in world [w']. *)
Inductive stores (h : OAuth2Handler) (w : World) (td : TokenResponse.t)
    (h' : OAuth2Handler) (w' : World) : Prop :=
| stores_set_tokens (a r : string) (e : Z) :
    set_tokens a r e h w = (Return tt, h', w') ->
    td = {| TokenResponse.access_token := a;
            TokenResponse.token_type := "bearer";
            TokenResponse.expires_in := e;
            TokenResponse.refresh_token := Some r;
            TokenResponse.scope := None |} ->
    stores h w td h' w'
| stores_exchange_code (code : string) :
    exchange_code code h w = (Return td, h', w') -> stores h w td h' w'
| stores_refresh (rt : string) :
    refresh_access_token rt h w = (Return td, h', w') -> stores h w td h' w'.

(** The Token Store holds a consistent pair for a credential issued at
    [issued]: both fields unset, or both set with the expiry instant
    computed from the stored credential. *)
Definition paired_at (issued : Instant) (h : OAuth2Handler) : Prop :=
  token_store h = (None, None) \/
  exists td, token_store h = (Some td, Some (expiry_of issued td)).

(** What every collection accessor does once its [params] are built: the
    gateway call, then the decoding of the page. *)
Definition fetch_page {R} (validate_R : Json -> option R) (path : string)
    (params : list (string * PVal)) : M WhoopClient (PaginatedResponse.t R) :=
  response <- _request "GET" path (Some params) None ;;
  j <- response_json response ;;
  construct (PaginatedResponse_validate validate_R) j.

(** The limit a query string must carry for a requested [limit]. *)
Definition clamped (limit : Z) : Z := if 25 <? limit then 25 else limit.

(** Call [c], if it has a query string, carries [limit=n]. *)
Definition carries_limit (n : Z) (c : HttpCall) : Prop :=
  forall ps, params c = Some ps -> dict_get "limit" ps = Some (PInt n).

(** A walk of the driver seen from outside: starting with cursor [c], the
    accessor returned the pages [ps] one after the other, each fetched with
    the cursor of the one before it; every page but the last has a truthy
    cursor, the last has none. *)
Inductive walked {R : Type}
    (get_collection : Z -> option datetime -> option datetime -> option string ->
                      M WhoopClient (PaginatedResponse.t R))
    (start end_ : option datetime) (page_size : Z)
    : option string -> WhoopClient -> World ->
      list (PaginatedResponse.t R) -> WhoopClient -> World -> Prop :=
| walked_last c self w p self1 w1 :
    get_collection page_size start end_ c self w = (Return p, self1, w1) ->
    truthy_opt (PaginatedResponse.next_token p) = false ->
    walked get_collection start end_ page_size c self w [p] self1 w1
| walked_more c self w p self1 w1 ps self2 w2 :
    get_collection page_size start end_ c self w = (Return p, self1, w1) ->
    truthy_opt (PaginatedResponse.next_token p) = true ->
    walked get_collection start end_ page_size
      (PaginatedResponse.next_token p) self1 w1 ps self2 w2 ->
    walked get_collection start end_ page_size c self w (p :: ps) self2 w2.

(** The records of a sequence of pages, in order. *)
Definition all_records {R} (ps : list (PaginatedResponse.t R)) : list R :=
  flat_map PaginatedResponse.records ps.

(** The transitions a walk over the pages [ps] takes: one to fetch each
    page, one per record, one to decide after each page. *)
Definition transitions {R} (ps : list (PaginatedResponse.t R)) : nat :=
  fold_right (fun p n => S (List.length (PaginatedResponse.records p) + S n)) O ps.

(** ** Further notions for the statements *)

(** The expiry instant of [td], issued at [now], is one Python can compute:
    the time span is within [timedelta]'s range and the sum within
    [datetime]'s. *)
Definition storable (now : Instant) (td : TokenResponse.t) : bool :=
  let n := TokenResponse.expires_in td - 300 in
  ((- max_delta_days <=? n / sec_per_day) && (n / sec_per_day <=? max_delta_days)
   && (0 <=? now + n * usec_per_sec) && (now + n * usec_per_sec <? datetime_end))%bool.

(** What a handler is configured with, as opposed to its Token Store. *)
Definition config (h : OAuth2Handler)
    : string * string * string * string * string * list string :=
  (client_id h, client_secret h, redirect_uri h, auth_base_url h, token_url h,
   scopes h).

(** [j] is not a JSON object. *)
Definition not_a_mapping (j : Json) : Prop :=
  match j with JObj _ => False | _ => True end.

(** The time a reply took. *)
Definition elapsed_of (reply : Reply) : Z :=
  match reply with Replied _ e | Failed e => e end.

(** What a caller gets out of the reply to its one resource call, the
    body being decoded by [validate]. *)
Definition decoded {A} (validate : list (string * Json) -> option A)
    (reply : Reply) : Outcome A :=
  match reply with
  | Failed _ => Raise RequestError
  | Replied r _ =>
      if is_success r then
        match body r with
        | None => Raise JSONDecodeError
        | Some (JObj kwargs) =>
            match validate kwargs with
            | Some a => Return a
            | None => Raise ValidationError
            end
        | Some _ => Raise TypeError
        end
      else Raise (HTTPStatusError (status_code r))
  end.

(** The access token is there and not yet expired at the clock of [w]. *)
Definition fresh (self : WhoopClient) (w : World) (tok : string) : Prop :=
  access_token (auth self) = Some tok /\ truthy tok = true /\
  expired_at (auth self) (clock w) = false.

(** An accessor [get] answers from one call: under a token that is not
    yet expired it makes the one [GET] of [path] with [query], leaves the
    client as it was, and hands the caller the decoded reply. *)
Definition answers_from {A} (get : M WhoopClient A) (path : string)
    (query : option (list (string * PVal)))
    (validate : list (string * Json) -> option A) : Prop :=
  forall self w tok,
    fresh self w tok ->
    let c := resource_call self tok "GET" path query None in
    let reply := network w (trace w) c in
    get self w = (decoded validate reply, self, after_call w c (elapsed_of reply)).

(** An accessor [get] refuses to run without an access token: it raises
    [ValueError(no_access_token)] and touches neither client nor world. *)
Definition refuses_unauthenticated {A} (get : M WhoopClient A) : Prop :=
  forall self w,
    _token_data (auth self) = None ->
    get self w = (Raise (ValueError no_access_token), self, w).

(** An optional query parameter: present only when there is a value. *)
Definition query_entry (key : string) (value : option string)
    : list (string * PVal) :=
  match value with
  | Some v => [(key, PStr v)]
  | None => []
  end.

(** The driver went through the pages [ps], which all had a truthy
    cursor: starting with cursor [c] it stands before the fetch with cursor
    [c'], the cursor of the last of them. *)
Inductive paged {R : Type}
    (get_collection : Z -> option datetime -> option datetime -> option string ->
                      M WhoopClient (PaginatedResponse.t R))
    (start end_ : option datetime) (page_size : Z)
    : option string -> WhoopClient -> World ->
      list (PaginatedResponse.t R) ->
      option string -> WhoopClient -> World -> Prop :=
| paged_none c self w :
    paged get_collection start end_ page_size c self w [] c self w
| paged_more c self w p self1 w1 ps c' self2 w2 :
    get_collection page_size start end_ c self w = (Return p, self1, w1) ->
    truthy_opt (PaginatedResponse.next_token p) = true ->
    paged get_collection start end_ page_size
      (PaginatedResponse.next_token p) self1 w1 ps c' self2 w2 ->
    paged get_collection start end_ page_size c self w (p :: ps) c' self2 w2.

(** The cursor each page of a walk was fetched with, the first being [c]. *)
Fixpoint cursors {R} (c : option string) (ps : list (PaginatedResponse.t R))
    : list (option string) :=
  match ps with
  | [] => []
  | p :: rest => c :: cursors (PaginatedResponse.next_token p) rest
  end.

(** The query strings among calls, in order. *)
Definition queries_of (calls : list HttpCall) : list (list (string * PVal)) :=
  flat_map (fun c => match params c with Some q => [q] | None => [] end) calls.

(** Reading a quoted field back, for the statements about what a URL
    determines: [+] is a space, [%XX] the byte [XX], anything else itself
    (as [urllib.parse.unquote_plus] reads what [quote_plus] writes). *)
Definition hex_value (c : ascii) : option N :=
  let n := N_of_ascii c in
  if urllib.in_range 48 57 n then Some (n - 48)%N
  else if urllib.in_range 65 70 n then Some (n - 55)%N
  else if urllib.in_range 97 102 n then Some (n - 87)%N
  else None.

Fixpoint unquote_plus (s : string) : string :=
  match s with
  | EmptyString => EmptyString
  | String c r =>
      if Ascii.eqb c "%" then
        match r with
        | String a (String b r') =>
            match hex_value a, hex_value b with
            | Some x, Some y => String (ascii_of_N (16 * x + y)) (unquote_plus r')
            | _, _ => String c (unquote_plus r)
            end
        | _ => String c (unquote_plus r)
        end
      else String (if Ascii.eqb c "+" then " "%char else c) (unquote_plus r)
  end.

(** What [quote_plus] makes of one byte. *)
Definition quote_plus_byte (c : ascii) : string :=
  if Ascii.eqb c " " then "+" else urllib.quoter [] c.

(** * Properties *)

(** ** Plumbing *)

Ltac unfold_monad :=
  repeat progress
    (unfold post, with_auth, raise_for_status, response_json, construct,
       bind, ret, raise, lift, get_self, modify, datetime_now, send in *).

Lemma set_auth_same (c : WhoopClient) : set_auth (auth c) c = c.
Proof. destruct c; reflexivity. Qed.

Lemma auth_set_auth (h : OAuth2Handler) (c : WhoopClient) : auth (set_auth h c) = h.
Proof. reflexivity. Qed.

Lemma truthy_opt_true (o : option string) :
  truthy_opt o = true <-> exists s, o = Some s /\ s <> "".
Proof.
  split.
  - destruct o as [[|a s]|]; simpl; intro H; try discriminate.
    exists (String a s); split; [reflexivity | discriminate].
  - intros (s & -> & Hs). destruct s; [contradiction | reflexivity].
Qed.

Lemma truthy_opt_false (o : option string) :
  truthy_opt o = false <-> o = None \/ o = Some "".
Proof.
  split.
  - destruct o as [[|a s]|]; simpl; intro H; try discriminate; auto.
  - intros [-> | ->]; reflexivity.
Qed.

(** ** [_store_token] *)

Lemma _store_token_cases (td : TokenResponse.t) (h : OAuth2Handler) (w : World) :
  _store_token td h w =
  match timedelta_seconds (TokenResponse.expires_in td - 300) with
  | Raise e => (Raise e, set__token_data (Some td) h, w)
  | Return d =>
      match datetime_add (clock w) d with
      | Raise e => (Raise e, set__token_data (Some td) h, w)
      | Return x =>
          (Return tt, set__token_expiry (Some x) (set__token_data (Some td) h), w)
      end
  end.
Proof.
  unfold _store_token; unfold_monad.
  destruct (timedelta_seconds _); [ destruct (datetime_add _ _) | ]; reflexivity.
Qed.

Lemma timedelta_seconds_Return (n d : Z) :
  timedelta_seconds n = Return d -> d = n * usec_per_sec.
Proof.
  unfold timedelta_seconds.
  destruct (_ && _)%bool; intro H; inversion H; reflexivity.
Qed.

Lemma datetime_add_Return (t d x : Z) :
  datetime_add t d = Return x -> x = t + d.
Proof.
  unfold datetime_add.
  destruct (_ && _)%bool; intro H; inversion H; reflexivity.
Qed.

Lemma _store_token_Return (td : TokenResponse.t) (h h' : OAuth2Handler)
    (w w' : World) (u : unit) :
  _store_token td h w = (Return u, h', w') ->
  w' = w /\
  h' = set__token_expiry (Some (expiry_of (clock w) td)) (set__token_data (Some td) h).
Proof.
  rewrite _store_token_cases.
  destruct (timedelta_seconds _) as [d|] eqn:Hd; [ | discriminate ].
  destruct (datetime_add _ _) as [x|] eqn:Hx; [ | discriminate ].
  intro H; inversion H; subst; clear H.
  apply timedelta_seconds_Return in Hd; apply datetime_add_Return in Hx.
  subst. split; reflexivity.
Qed.

(** Whatever [_store_token] ends in, the credential it was given is stored
    and the world is untouched. *)
Lemma _store_token_data (td : TokenResponse.t) (h h' : OAuth2Handler)
    (w w' : World) (o : Outcome unit) :
  _store_token td h w = (o, h', w') -> w' = w /\ _token_data h' = Some td.
Proof.
  rewrite _store_token_cases.
  destruct (timedelta_seconds _); [ destruct (datetime_add _ _) | ];
    intro H; inversion H; subst; split; reflexivity.
Qed.

(** ** The token exchanges *)

Lemma exchange_code_cases (code : string) (h : OAuth2Handler) (w : World) :
  exchange_code code h w =
  match network w (trace w) (exchange_call h code) with
  | Replied r elapsed => decode_and_store r h (after_call w (exchange_call h code) elapsed)
  | Failed elapsed => (Raise RequestError, h, after_call w (exchange_call h code) elapsed)
  end.
Proof.
  unfold exchange_code, decode_and_store, exchange_call; unfold_monad.
  destruct (network w (trace w) _); reflexivity.
Qed.

Lemma refresh_access_token_cases (rt : string) (h : OAuth2Handler) (w : World) :
  refresh_access_token rt h w =
  match network w (trace w) (refresh_call h rt) with
  | Replied r elapsed => decode_and_store r h (after_call w (refresh_call h rt) elapsed)
  | Failed elapsed => (Raise RequestError, h, after_call w (refresh_call h rt) elapsed)
  end.
Proof.
  unfold refresh_access_token, decode_and_store, refresh_call; unfold_monad.
  destruct (network w (trace w) _); reflexivity.
Qed.

Lemma decode_and_store_cases (r : Response) (h : OAuth2Handler) (w : World) :
  decode_and_store r h w =
  if is_success r then
    match body r with
    | None => (Raise JSONDecodeError, h, w)
    | Some (JObj kwargs) =>
        match TokenResponse_validate kwargs with
        | None => (Raise ValidationError, h, w)
        | Some td =>
            let '(o, h', w') := _store_token td h w in
            match o with
            | Return _ => (Return td, h', w')
            | Raise e => (Raise e, h', w')
            end
        end
    | Some _ => (Raise TypeError, h, w)
    end
  else (Raise (HTTPStatusError (status_code r)), h, w).
Proof.
  unfold decode_and_store; unfold_monad.
  destruct (is_success r); [ | reflexivity ].
  destruct (body r) as [[]|]; try reflexivity.
  destruct (TokenResponse_validate _); reflexivity.
Qed.

(** A successful [decode_and_store]: the response was 2xx, decoded to the
    returned credential, and that credential was stored at the instant the
    response arrived. *)
Lemma decode_and_store_Return (r : Response) (h h' : OAuth2Handler)
    (w w' : World) (td : TokenResponse.t) :
  decode_and_store r h w = (Return td, h', w') ->
  is_success r = true /\
  (exists kwargs, body r = Some (JObj kwargs) /\ TokenResponse_validate kwargs = Some td) /\
  w' = w /\
  h' = set__token_expiry (Some (expiry_of (clock w) td)) (set__token_data (Some td) h).
Proof.
  rewrite decode_and_store_cases.
  destruct (is_success r); [ | discriminate ].
  destruct (body r) as [[| | | | | |kwargs]|]; try discriminate.
  destruct (TokenResponse_validate kwargs) as [td'|] eqn:Hv; [ | discriminate ].
  destruct (_store_token td' h w) as [[o h1] w1] eqn:Hs.
  destruct o as [u|]; [ | discriminate ].
  intro H; inversion H; subst; clear H.
  apply _store_token_Return in Hs. destruct Hs as [-> ->].
  repeat split; eauto.
Qed.

(** A [decode_and_store] that changes the handler has decoded a 2xx response. *)
Lemma decode_and_store_changes (r : Response) (h h' : OAuth2Handler)
    (w w' : World) (o : Outcome TokenResponse.t) :
  decode_and_store r h w = (o, h', w') ->
  w' = w /\
  (h' = h \/
   (is_success r = true /\
    exists kwargs td, body r = Some (JObj kwargs) /\
                      TokenResponse_validate kwargs = Some td /\
                      _token_data h' = Some td)).
Proof.
  rewrite decode_and_store_cases.
  destruct (is_success r); [ | intro H; inversion H; auto ].
  destruct (body r) as [[| | | | | |kwargs]|]; try (intro H; inversion H; auto).
  destruct (TokenResponse_validate kwargs) as [td|] eqn:Hv;
    [ | inversion H; auto ].
  destruct (_store_token td h w) as [[o1 h1] w1] eqn:Hs.
  apply _store_token_data in Hs. destruct Hs as [-> Hd].
  assert (h' = h1 /\ w' = w) as [-> ->] by (destruct o1; inversion H; auto).
  split; [ reflexivity | right ]. split; [ reflexivity | ].
  exists kwargs, td. auto.
Qed.

(** ** [is_token_expired] *)

Lemma is_token_expired_eq (h : OAuth2Handler) (w : World) :
  is_token_expired h w = (Return (expired_at h (clock w)), h, w).
Proof.
  unfold is_token_expired, expired_at; unfold_monad.
  destruct (_token_expiry h); reflexivity.
Qed.

(** ** [_request] *)

Lemma dispatch_cases (method endpoint : string)
    (params : option (list (string * PVal))) (json : option Json)
    (self : WhoopClient) (w : World) :
  dispatch method endpoint params json self w =
  match access_token (auth self) with
  | Some tok =>
      if truthy tok then
        let c := resource_call self tok method endpoint params json in
        match network w (trace w) c with
        | Replied r elapsed =>
            if is_success r then (Return r, self, after_call w c elapsed)
            else (Raise (HTTPStatusError (status_code r)), self, after_call w c elapsed)
        | Failed elapsed => (Raise RequestError, self, after_call w c elapsed)
        end
      else (Raise (ValueError no_access_token), self, w)
  | None => (Raise (ValueError no_access_token), self, w)
  end.
Proof.
  unfold dispatch; unfold_monad.
  destruct (access_token (auth self)) as [tok|]; [ | reflexivity ].
  destruct (truthy tok); [ | reflexivity ].
  cbv zeta.
  destruct (network w (trace w) _) as [r el|el]; [ | reflexivity ].
  destruct (is_success r); reflexivity.
Qed.

(** [_request] is the refresh step followed by [dispatch]. *)
Lemma _request_cases (method endpoint : string)
    (params : option (list (string * PVal))) (json : option Json)
    (self : WhoopClient) (w : World) :
  _request method endpoint params json self w =
  if needs_refresh (auth self) w then
    match refresh_token (auth self) with
    | Some rt =>
        let '(o, h1, w1) := refresh_access_token rt (auth self) w in
        match o with
        | Return _ => dispatch method endpoint params json (set_auth h1 self) w1
        | Raise e => (Raise e, set_auth h1 self, w1)
        end
    | None => dispatch method endpoint params json self w
    end
  else dispatch method endpoint params json self w.
Proof.
  unfold _request, needs_refresh.
  unfold bind at 1. unfold with_auth at 1. rewrite is_token_expired_eq.
  rewrite set_auth_same.
  unfold bind at 1. unfold get_self at 1.
  destruct (expired_at (auth self) (clock w) && truthy_opt (refresh_token (auth self)))%bool.
  - destruct (refresh_token (auth self)) as [rt|].
    + unfold bind at 1. unfold bind at 1. unfold with_auth at 1.
      destruct (refresh_access_token rt (auth self) w) as [[o h1] w1].
      destruct o; reflexivity.
    + reflexivity.
  - reflexivity.
Qed.

(** Every call [dispatch] makes is the resource call, and it makes at most
    one; the client is left as it was. *)
Lemma dispatch_trace (method endpoint : string)
    (params : option (list (string * PVal))) (json : option Json)
    (self self' : WhoopClient) (w w' : World) (o : Outcome Response) :
  dispatch method endpoint params json self w = (o, self', w') ->
  self' = self /\
  match access_token (auth self) with
  | Some tok =>
      if truthy tok
      then trace w' = (trace w ++ [resource_call self tok method endpoint params json])%list
      else o = Raise (ValueError no_access_token) /\ w' = w
  | None => o = Raise (ValueError no_access_token) /\ w' = w
  end.
Proof.
  rewrite dispatch_cases.
  destruct (access_token (auth self)) as [tok|];
    [ destruct (truthy tok) | ]; cbv zeta.
  - destruct (network w (trace w) _) as [r el|el];
      [ destruct (is_success r) | ]; intro H; inversion H; subst; auto.
  - intro H; inversion H; auto.
  - intro H; inversion H; auto.
Qed.

(** ** Expiry with the five-minute buffer *)

Lemma stores_state (h : OAuth2Handler) (w : World) (td : TokenResponse.t)
    (h' : OAuth2Handler) (w' : World) :
  stores h w td h' w' ->
  h' = set__token_expiry (Some (expiry_of (clock w') td)) (set__token_data (Some td) h).
Proof.
  intros [a r e Hrun Htd | code Hrun | rt Hrun].
  - unfold set_tokens in Hrun. rewrite <- Htd in Hrun.
    apply _store_token_Return in Hrun. destruct Hrun as [-> ->]. reflexivity.
  - rewrite exchange_code_cases in Hrun.
    destruct (network w (trace w) _) as [r el|el]; [ | discriminate ].
    apply decode_and_store_Return in Hrun.
    destruct Hrun as (_ & _ & -> & ->). reflexivity.
  - rewrite refresh_access_token_cases in Hrun.
    destruct (network w (trace w) _) as [r el|el]; [ | discriminate ].
    apply decode_and_store_Return in Hrun.
    destruct Hrun as (_ & _ & -> & ->). reflexivity.
Qed.

(** C4. Immediately after [set_tokens], [exchange_code] or
    [refresh_access_token] has stored a credential [td], the stored expiry
    instant is the issue time plus [expires_in - 300] seconds, so
    [is_token_expired()] answers [False] when [expires_in > 300] and [True]
    when [expires_in <= 300]. *)
Theorem expiry_buffer_after_store (h : OAuth2Handler) (w : World)
    (td : TokenResponse.t) (h' : OAuth2Handler) (w' : World) :
  stores h w td h' w' ->
  _token_data h' = Some td /\
  _token_expiry h' = Some (clock w' + (TokenResponse.expires_in td - 300) * usec_per_sec) /\
  (300 < TokenResponse.expires_in td ->
   is_token_expired h' w' = (Return false, h', w')) /\
  (TokenResponse.expires_in td <= 300 ->
   is_token_expired h' w' = (Return true, h', w')).
Proof.
  intro Hs. apply stores_state in Hs.
  assert (Hx : _token_expiry h' = Some (expiry_of (clock w') td)) by (subst h'; reflexivity).
  repeat split.
  - subst h'; reflexivity.
  - exact Hx.
  - intro Hgt. rewrite is_token_expired_eq. unfold expired_at. rewrite Hx.
    unfold expiry_of, usec_per_sec.
    destruct (Z.leb_spec (clock w' + (TokenResponse.expires_in td - 300) * 1000000) (clock w'));
      [ lia | reflexivity ].
  - intro Hle. rewrite is_token_expired_eq. unfold expired_at. rewrite Hx.
    unfold expiry_of, usec_per_sec.
    destruct (Z.leb_spec (clock w' + (TokenResponse.expires_in td - 300) * 1000000) (clock w'));
      [ reflexivity | lia ].
Qed.

(** The buffer rule at later instants: a credential with
    [expires_in <= 300] is expired from the moment it is stored on, and one
    with [expires_in > 300] is not expired for as long as less than
    [expires_in - 300] seconds have passed. *)
Lemma expiry_buffer_later (h : OAuth2Handler) (w : World)
    (td : TokenResponse.t) (h' : OAuth2Handler) (w' : World) (now : Instant) :
  stores h w td h' w' ->
  expired_at h' now =
  (clock w' + (TokenResponse.expires_in td - 300) * usec_per_sec <=? now).
Proof.
  intro Hs. apply stores_state in Hs. subst h'. reflexivity.
Qed.

(** An operation that stores a credential and returns leaves a consistent
    pair, issued at the instant it returns. *)
Lemma stores_paired (h : OAuth2Handler) (w : World) (td : TokenResponse.t)
    (h' : OAuth2Handler) (w' : World) :
  stores h w td h' w' -> paired_at (clock w') h'.
Proof.
  intro Hs. apply stores_state in Hs. subst h'.
  right. exists td. reflexivity.
Qed.

(** ** Failed token exchanges *)

(** C10. When the token endpoint answers [exchange_code] or
    [refresh_access_token] with a status outside 2xx, the operation raises
    [HTTPStatusError] and the handler, hence its Token Store, is exactly as
    before; and whenever either operation changes the handler at all, a 2xx
    response had been decoded into the credential now stored. *)
Theorem failed_exchange_keeps_store (h : OAuth2Handler) (w : World) :
  (forall code r elapsed,
      network w (trace w) (exchange_call h code) = Replied r elapsed ->
      ~ (200 <= status_code r <= 299) ->
      exchange_code code h w =
      (Raise (HTTPStatusError (status_code r)), h,
       after_call w (exchange_call h code) elapsed)) /\
  (forall rt r elapsed,
      network w (trace w) (refresh_call h rt) = Replied r elapsed ->
      ~ (200 <= status_code r <= 299) ->
      refresh_access_token rt h w =
      (Raise (HTTPStatusError (status_code r)), h,
       after_call w (refresh_call h rt) elapsed)) /\
  (forall code o h' w',
      exchange_code code h w = (o, h', w') ->
      h' <> h ->
      exists r elapsed kwargs td,
        network w (trace w) (exchange_call h code) = Replied r elapsed /\
        200 <= status_code r <= 299 /\
        body r = Some (JObj kwargs) /\
        TokenResponse_validate kwargs = Some td /\
        _token_data h' = Some td) /\
  (forall rt o h' w',
      refresh_access_token rt h w = (o, h', w') ->
      h' <> h ->
      exists r elapsed kwargs td,
        network w (trace w) (refresh_call h rt) = Replied r elapsed /\
        200 <= status_code r <= 299 /\
        body r = Some (JObj kwargs) /\
        TokenResponse_validate kwargs = Some td /\
        _token_data h' = Some td).
Proof.
  assert (Hfail : forall r, ~ (200 <= status_code r <= 299) -> is_success r = false).
  { intros r Hr. unfold is_success.
    destruct (Z.leb_spec 200 (status_code r)); destruct (Z.leb_spec (status_code r) 299);
      simpl; try reflexivity; lia. }
  assert (Hok : forall r, is_success r = true -> 200 <= status_code r <= 299).
  { intros r Hr. unfold is_success in Hr.
    apply andb_prop in Hr. destruct Hr as [H1 H2].
    apply Z.leb_le in H1, H2. lia. }
  repeat split.
  - intros code r el Hnet Hr. rewrite exchange_code_cases, Hnet, decode_and_store_cases.
    rewrite (Hfail r Hr). reflexivity.
  - intros rt r el Hnet Hr. rewrite refresh_access_token_cases, Hnet, decode_and_store_cases.
    rewrite (Hfail r Hr). reflexivity.
  - intros code o h' w' Hrun Hne. rewrite exchange_code_cases in Hrun.
    destruct (network w (trace w) _) as [r el|el];
      [ | inversion Hrun; subst; contradiction ].
    apply decode_and_store_changes in Hrun.
    destruct Hrun as [_ [Heq | (Hs & kw & td & Hb & Hv & Hd)]]; [ contradiction | ].
    exists r, el, kw, td. auto.
  - intros rt o h' w' Hrun Hne. rewrite refresh_access_token_cases in Hrun.
    destruct (network w (trace w) _) as [r el|el];
      [ | inversion Hrun; subst; contradiction ].
    apply decode_and_store_changes in Hrun.
    destruct Hrun as [_ [Heq | (Hs & kw & td & Hb & Hv & Hd)]]; [ contradiction | ].
    exists r, el, kw, td. auto.
Qed.

(** ** What a refresh does to the stored refresh token *)

(** C6, as the code has it.  A successful refresh replaces the stored
    credential wholesale by the decoded response.  When the response omits
    [refresh_token] (or gives [null]), the decoded credential has none, and
    the [refresh_token] property answers [None] afterwards: the token stored
    before the call is not retained. *)
Theorem refresh_supersedes_credential (rt : string) (h : OAuth2Handler)
    (w : World) (td : TokenResponse.t) (h' : OAuth2Handler) (w' : World) :
  refresh_access_token rt h w = (Return td, h', w') ->
  _token_data h' = Some td /\
  refresh_token h' = TokenResponse.refresh_token td /\
  access_token h' = Some (TokenResponse.access_token td) /\
  exists r elapsed kwargs,
    network w (trace w) (refresh_call h rt) = Replied r elapsed /\
    body r = Some (JObj kwargs) /\
    TokenResponse_validate kwargs = Some td /\
    (dict_get "refresh_token" kwargs = None \/
     dict_get "refresh_token" kwargs = Some JNull ->
     refresh_token h' = None).
Proof.
  intro Hrun.
  assert (Hh := stores_state _ _ _ _ _ (stores_refresh _ _ _ _ _ rt Hrun)).
  rewrite refresh_access_token_cases in Hrun.
  destruct (network w (trace w) _) as [r el|el] eqn:Hnet; [ | discriminate ].
  apply decode_and_store_Return in Hrun.
  destruct Hrun as (_ & (kw & Hb & Hv) & _ & _).
  assert (Hd : _token_data h' = Some td) by (subst h'; reflexivity).
  assert (Hr : refresh_token h' = TokenResponse.refresh_token td)
    by (unfold refresh_token; rewrite Hd; reflexivity).
  repeat split; auto.
  - unfold access_token; rewrite Hd; reflexivity.
  - exists r, el, kw. repeat split; auto.
    intro Hom. rewrite Hr.
    unfold TokenResponse_validate in Hv.
    destruct (required validate_str "access_token" kw); [ | discriminate ].
    destruct (required validate_str "token_type" kw); [ | discriminate ].
    destruct (required validate_int "expires_in" kw); [ | discriminate ].
    assert (Ho : optional validate_str "refresh_token" kw = Some None)
      by (unfold optional; destruct Hom as [-> | ->]; reflexivity).
    rewrite Ho in Hv.
    destruct (optional validate_str "scope" kw); [ | discriminate ].
    inversion Hv; reflexivity.
Qed.

(** ** The Request Gateway *)

Lemma refresh_access_token_trace (rt : string) (h h1 : OAuth2Handler)
    (w w1 : World) (ro : Outcome TokenResponse.t) :
  refresh_access_token rt h w = (ro, h1, w1) ->
  trace w1 = (trace w ++ [refresh_call h rt])%list /\ network w1 = network w.
Proof.
  rewrite refresh_access_token_cases.
  destruct (network w (trace w) _) as [r el|el].
  - intro H. apply decode_and_store_changes in H. destruct H as [-> _].
    split; reflexivity.
  - intro H; inversion H; subst. split; reflexivity.
Qed.

Lemma refresh_access_token_Return (rt : string) (h h1 : OAuth2Handler)
    (w w1 : World) (td : TokenResponse.t) :
  refresh_access_token rt h w = (Return td, h1, w1) ->
  access_token h1 = Some (TokenResponse.access_token td).
Proof.
  intro H. apply stores_refresh, stores_state in H. subst h1. reflexivity.
Qed.

Lemma needs_refresh_true (h : OAuth2Handler) (w : World) (rt : string) :
  is_token_expired h w = (Return true, h, w) ->
  refresh_token h = Some rt -> rt <> "" ->
  needs_refresh h w = true.
Proof.
  rewrite is_token_expired_eq. intros He Hr Hne.
  inversion He as [Hx]. unfold needs_refresh. rewrite Hx, Hr.
  destruct rt; [ contradiction | reflexivity ].
Qed.

Lemma needs_refresh_false (h : OAuth2Handler) (w : World) :
  is_token_expired h w = (Return false, h, w) \/
  refresh_token h = None \/ refresh_token h = Some "" ->
  needs_refresh h w = false.
Proof.
  rewrite is_token_expired_eq. unfold needs_refresh.
  intros [He | [Hr | Hr]].
  - inversion He as [Hx]. rewrite Hx. reflexivity.
  - rewrite Hr. apply andb_false_r.
  - rewrite Hr. apply andb_false_r.
Qed.

(** C1, as the code has it.  [_request] first looks after the token.
    - When the token is expired and a non-empty refresh token is on record,
      exactly one refresh call is made, before anything else.  If the
      refresh raises, [_request] raises that same exception and makes no
      resource call.  If it succeeds with a non-empty access token, the
      resource call follows it, the two being the only calls made.  If it
      succeeds with an empty access token, [_request] raises
      [ValueError(no_access_token)] and makes no resource call.
    - Otherwise no refresh is attempted: without an access token (never
      authenticated, or an empty one) [_request] raises
      [ValueError(no_access_token)] and makes no call at all; with one, the
      resource call is the only call made. *)
Theorem gateway_refresh_then_dispatch (method endpoint : string)
    (params : option (list (string * PVal))) (json : option Json)
    (self : WhoopClient) (w : World) :
  (forall rt ro h1 w1,
      is_token_expired (auth self) w = (Return true, auth self, w) ->
      refresh_token (auth self) = Some rt -> rt <> "" ->
      refresh_access_token rt (auth self) w = (ro, h1, w1) ->
      trace w1 = (trace w ++ [refresh_call (auth self) rt])%list /\
      match ro with
      | Raise e =>
          _request method endpoint params json self w = (Raise e, set_auth h1 self, w1)
      | Return td =>
          if truthy (TokenResponse.access_token td) then
            exists o w',
              _request method endpoint params json self w = (o, set_auth h1 self, w') /\
              trace w' =
              (trace w ++ [refresh_call (auth self) rt;
                           resource_call self (TokenResponse.access_token td)
                             method endpoint params json])%list
          else
            _request method endpoint params json self w =
            (Raise (ValueError no_access_token), set_auth h1 self, w1)
      end) /\
  (is_token_expired (auth self) w = (Return false, auth self, w) \/
   refresh_token (auth self) = None \/ refresh_token (auth self) = Some "" ->
   match access_token (auth self) with
   | Some tok =>
       if truthy tok then
         exists o w',
           _request method endpoint params json self w = (o, self, w') /\
           trace w' =
           (trace w ++ [resource_call self tok method endpoint params json])%list
       else
         _request method endpoint params json self w =
         (Raise (ValueError no_access_token), self, w)
   | None =>
       _request method endpoint params json self w =
       (Raise (ValueError no_access_token), self, w)
   end).
Proof.
  split.
  - intros rt ro h1 w1 Hexp Hrt Hne Hrun.
    pose proof (refresh_access_token_trace _ _ _ _ _ _ Hrun) as [Htr _].
    split; [ exact Htr | ].
    rewrite _request_cases, (needs_refresh_true _ _ _ Hexp Hrt Hne), Hrt, Hrun.
    destruct ro as [td|e]; [ | reflexivity ].
    pose proof (refresh_access_token_Return _ _ _ _ _ _ Hrun) as Hat.
    destruct (dispatch method endpoint params json (set_auth h1 self) w1)
      as [[o self'] w'] eqn:Hd.
    pose proof (dispatch_trace _ _ _ _ _ _ _ _ _ Hd) as [-> Hcall].
    rewrite auth_set_auth, Hat in Hcall.
    destruct (truthy (TokenResponse.access_token td)).
    + exists o, w'. split; [ reflexivity | ].
      rewrite Hcall, Htr, <- app_assoc. reflexivity.
    + destruct Hcall as [-> ->]. reflexivity.
  - intro Hno. rewrite _request_cases, (needs_refresh_false _ _ Hno).
    destruct (dispatch method endpoint params json self w) as [[o self'] w'] eqn:Hd.
    pose proof (dispatch_trace _ _ _ _ _ _ _ _ _ Hd) as [-> Hcall].
    destruct (access_token (auth self)) as [tok|]; [ destruct (truthy tok) | ].
    + exists o, w'. split; [ reflexivity | exact Hcall ].
    + destruct Hcall as [-> ->]. reflexivity.
    + destruct Hcall as [-> ->]. reflexivity.
Qed.

(** ** Injected tokens *)

(** C9. A client constructed with exactly one of [access_token] and
    [refresh_token] stores no credential: the handler's access token is
    [None], [is_token_expired()] is [True], and every [_request] raises
    [ValueError(no_access_token)] without any call.  Conversely a
    constructed client holds a credential only when both were supplied. *)
Theorem one_injected_token_is_ignored (cid secret uri : string)
    (a r : option string) (scopes : option (list string)) (tmo : float) (w : World) :
  ((a = None /\ r <> None) \/ (a <> None /\ r = None) ->
   exists self,
     WhoopClient_init cid secret uri a r scopes tmo w = (Return self, w) /\
     token_store (auth self) = (None, None) /\
     access_token (auth self) = None /\
     (forall w1, is_token_expired (auth self) w1 = (Return true, auth self, w1)) /\
     (forall method endpoint params json w1,
         _request method endpoint params json self w1 =
         (Raise (ValueError no_access_token), self, w1))) /\
  (forall self w',
      WhoopClient_init cid secret uri a r scopes tmo w = (Return self, w') ->
      _token_data (auth self) <> None ->
      exists sa sr, a = Some sa /\ r = Some sr /\ sa <> "" /\ sr <> "").
Proof.
  split.
  - intro Hone.
    assert (Hinit : WhoopClient_init cid secret uri a r scopes tmo w =
                    (Return {| base_url := "https://api.prod.whoop.com/developer";
                               auth := OAuth2Handler_init cid secret uri scopes;
                               timeout := tmo |}, w)).
    { unfold WhoopClient_init.
      destruct Hone as [[-> _] | [_ ->]]; [ reflexivity | destruct a; reflexivity ]. }
    eexists. split; [ exact Hinit | ].
    split; [ reflexivity | ]. split; [ reflexivity | ]. split.
    + intro w1. reflexivity.
    + intros method endpoint params json w1.
      rewrite _request_cases. reflexivity.
  - intros self w' Hinit Hdata. unfold WhoopClient_init in Hinit.
    destruct a as [sa|]; [ destruct r as [sr|] | ].
    + destruct sa as [|c1 sa]; [ | destruct sr as [|c2 sr] ]; simpl in Hinit.
      * inversion Hinit; subst; simpl in Hdata; contradiction.
      * inversion Hinit; subst; simpl in Hdata; contradiction.
      * exists (String c1 sa), (String c2 sr).
        repeat split; discriminate.
    + inversion Hinit; subst; simpl in Hdata; contradiction.
    + inversion Hinit; subst; simpl in Hdata; contradiction.
Qed.

(** ** Collection accessors and the page-size clamp *)

Lemma calls_since_app (w w' : World) (l : list HttpCall) :
  trace w' = (trace w ++ l)%list -> calls_since w w' = l.
Proof.
  intro H. unfold calls_since. rewrite H.
  rewrite skipn_app, skipn_all, Nat.sub_diag. reflexivity.
Qed.

Lemma dict_get_limit (limit : Z) (start end_ : option datetime)
    (next_token : option string) :
  dict_get "limit" (collection_params limit start end_ next_token)
  = Some (PInt (clamped limit)).
Proof.
  assert (Hm : Z.min limit 25 = clamped limit).
  { unfold clamped. destruct (Z.ltb_spec 25 limit); lia. }
  unfold collection_params. rewrite Hm.
  destruct start, end_, next_token as [[|c t]|]; reflexivity.
Qed.

(** The calls of a gateway request: the refresh call has no query string,
    the resource call has the one that was asked for. *)
Lemma _request_calls (method endpoint : string)
    (query : option (list (string * PVal))) (js : option Json)
    (self self' : WhoopClient) (w w' : World) (o : Outcome Response) :
  _request method endpoint query js self w = (o, self', w') ->
  exists l, trace w' = (trace w ++ l)%list /\
            Forall (fun c => params c = None \/ params c = query) l.
Proof.
  rewrite _request_cases.
  assert (Hd : forall s0 w0 o0 s1 w1,
             dispatch method endpoint query js s0 w0 = (o0, s1, w1) ->
             exists l, trace w1 = (trace w0 ++ l)%list /\
                       Forall (fun c => params c = None \/ params c = query) l).
  { intros s0 w0 o0 s1 w1 H. apply dispatch_trace in H. destruct H as [_ H].
    destruct (access_token (auth s0)) as [tok|]; [ destruct (truthy tok) | ].
    - eexists. split; [ exact H | ]. constructor; [ right; reflexivity | constructor ].
    - destruct H as [_ ->]. exists []. rewrite app_nil_r. auto.
    - destruct H as [_ ->]. exists []. rewrite app_nil_r. auto. }
  destruct (needs_refresh (auth self) w); [ | apply Hd ].
  destruct (refresh_token (auth self)) as [rt|]; [ | apply Hd ].
  destruct (refresh_access_token rt (auth self) w) as [[ro h1] w1] eqn:Hr.
  apply refresh_access_token_trace in Hr. destruct Hr as [Htr _].
  destruct ro as [td|e].
  - intro H. apply Hd in H. destruct H as (l & Hl & Hall).
    exists (refresh_call (auth self) rt :: l). split.
    + rewrite Hl, Htr, <- app_assoc. reflexivity.
    + constructor; [ left; reflexivity | exact Hall ].
  - intro H; inversion H; subst.
    exists [refresh_call (auth self) rt]. split; [ exact Htr | ].
    constructor; [ left; reflexivity | constructor ].
Qed.

Lemma fetch_page_calls {R} (validate_R : Json -> option R) (path : string)
    (query : list (string * PVal)) (self self' : WhoopClient) (w w' : World)
    (o : Outcome (PaginatedResponse.t R)) :
  fetch_page validate_R path query self w = (o, self', w') ->
  exists l, trace w' = (trace w ++ l)%list /\
            Forall (fun c => params c = None \/ params c = Some query) l.
Proof.
  unfold fetch_page. unfold bind at 1.
  destruct (_request "GET" path (Some query) None self w) as [[ro s1] w1] eqn:Hr.
  apply _request_calls in Hr.
  destruct ro as [r|e]; [ | intro H; inversion H; subst; exact Hr ].
  unfold_monad.
  destruct (body r) as [[| | | | | |kw]|]; try (intro H; inversion H; subst; exact Hr).
  destruct (PaginatedResponse_validate validate_R kw);
    intro H; inversion H; subst; exact Hr.
Qed.

(** C5. Each of the four collection accessors hands the gateway the query
    parameters [collection_params limit ...], in which [limit] is 25 when the
    given limit exceeds 25 and the given limit otherwise; no limit makes an
    accessor raise: it is the gateway call itself, and behaves for a limit
    above 25 as it does for 25.  Every call it puts on the wire with a query
    string carries that clamped limit. *)
Theorem limit_is_clamped (limit : Z) (start end_ : option datetime)
    (next_token : option string) :
  let query := collection_params limit start end_ next_token in
  dict_get "limit" query = Some (PInt (if 25 <? limit then 25 else limit)) /\
  (get_cycle_collection limit start end_ next_token
   = fetch_page validate_Cycle "/v2/cycle" query /\
   get_recovery_collection limit start end_ next_token
   = fetch_page validate_Recovery "/v2/activity/recovery" query /\
   get_sleep_collection limit start end_ next_token
   = fetch_page validate_Sleep "/v2/activity/sleep" query /\
   get_workout_collection limit start end_ next_token
   = fetch_page validate_WorkoutV2 "/v2/activity/workout" query) /\
  (25 < limit ->
   get_cycle_collection limit start end_ next_token
   = get_cycle_collection 25 start end_ next_token /\
   get_recovery_collection limit start end_ next_token
   = get_recovery_collection 25 start end_ next_token /\
   get_sleep_collection limit start end_ next_token
   = get_sleep_collection 25 start end_ next_token /\
   get_workout_collection limit start end_ next_token
   = get_workout_collection 25 start end_ next_token) /\
  (forall self w self' w',
      (exists o, get_cycle_collection limit start end_ next_token self w = (o, self', w')) \/
      (exists o, get_recovery_collection limit start end_ next_token self w = (o, self', w')) \/
      (exists o, get_sleep_collection limit start end_ next_token self w = (o, self', w')) \/
      (exists o, get_workout_collection limit start end_ next_token self w = (o, self', w')) ->
      Forall (carries_limit (if 25 <? limit then 25 else limit)) (calls_since w w')).
Proof.
  cbv zeta. split; [ apply dict_get_limit | ].
  split; [ repeat split | ].
  split.
  - intro Hgt.
    assert (Hm : Z.min limit 25 = Z.min 25 25) by lia.
    unfold get_cycle_collection, get_recovery_collection, get_sleep_collection,
      get_workout_collection.
    rewrite Hm. repeat split.
  - intros self w self' w' H.
    assert (Hcalls : exists l, trace w' = (trace w ++ l)%list /\
               Forall (fun c => params c = None \/
                         params c = Some (collection_params limit start end_ next_token)) l).
    { destruct H as [[o H] | [[o H] | [[o H] | [o H]]]];
        exact (fetch_page_calls _ _ _ _ _ _ _ _ H). }
    destruct Hcalls as (l & Hl & Hall).
    rewrite (calls_since_app _ _ _ Hl).
    apply Forall_impl with (2 := Hall).
    intros c [Hc | Hc] ps Hps; rewrite Hc in Hps; [ discriminate | ].
    inversion Hps; subst. apply dict_get_limit.
Qed.

(** ** The pagination driver *)

(** A page fetched under a token that is not yet expired. *)
Lemma fetch_page_fresh {R} (validate_R : Json -> option R) (path : string)
    (query : list (string * PVal)) (self : WhoopClient) (w : World)
    (tok : string) (expiry : Instant) (kwargs : list (string * Json))
    (elapsed : Z) (page : PaginatedResponse.t R) :
  access_token (auth self) = Some tok -> truthy tok = true ->
  _token_expiry (auth self) = Some expiry -> clock w < expiry ->
  network w (trace w) (resource_call self tok "GET" path (Some query) None)
  = Replied {| status_code := 200; body := Some (JObj kwargs) |} elapsed ->
  PaginatedResponse_validate validate_R kwargs = Some page ->
  fetch_page validate_R path query self w
  = (Return page, self,
     after_call w (resource_call self tok "GET" path (Some query) None) elapsed).
Proof.
  intros Hat Htok Hexp Hlt Hnet Hpage.
  unfold fetch_page. unfold bind at 1.
  rewrite _request_cases.
  assert (Hn : needs_refresh (auth self) w = false).
  { unfold needs_refresh, expired_at. rewrite Hexp.
    destruct (Z.leb_spec expiry (clock w)); [ lia | reflexivity ]. }
  rewrite Hn, dispatch_cases, Hat, Htok. cbv zeta. rewrite Hnet.
  unfold_monad. simpl. rewrite Hpage. reflexivity.
Qed.

Section Driver.
Context {R : Type}.
Variable get_collection :
  Z -> option datetime -> option datetime -> option string ->
  M WhoopClient (PaginatedResponse.t R).
Variables (start end_ : option datetime) (page_size : Z).

(** The records of a page are yielded in the order given, however many
    they are, with no call in between. *)
Lemma consume_yields (rs : list R) (nt : option string) (n : nat)
    (acc : list R) (self : WhoopClient) (w : World) :
  consume (resume get_collection start end_ page_size)
    (List.length rs + n)%nat (InPage rs nt) acc self w
  = consume (resume get_collection start end_ page_size)
      n (InPage [] nt) (acc ++ rs)%list self w.
Proof.
  revert acc. induction rs as [|r rs IH]; intro acc.
  - rewrite app_nil_r. reflexivity.
  - simpl. rewrite IH, <- app_assoc. reflexivity.
Qed.

(** One turn of the [while True] loop, from the fetch of a page [p] to the
    decision taken after its last record. *)
Lemma consume_page (c : option string) (p : PaginatedResponse.t R)
    (self self1 : WhoopClient) (w w1 : World) (acc : list R) (n : nat) :
  get_collection page_size start end_ c self w = (Return p, self1, w1) ->
  consume (resume get_collection start end_ page_size)
    (S (List.length (PaginatedResponse.records p) + S n)) (AtFetch c) acc self w
  = if truthy_opt (PaginatedResponse.next_token p)
    then consume (resume get_collection start end_ page_size)
           n (AtFetch (PaginatedResponse.next_token p))
           (acc ++ PaginatedResponse.records p)%list self1 w1
    else ((acc ++ PaginatedResponse.records p)%list, Exhausted, self1, w1).
Proof.
  intro Hget.
  change (consume (resume get_collection start end_ page_size)
            (S (List.length (PaginatedResponse.records p) + S n)) (AtFetch c) acc self w)
    with (let '(ev, g', self', w') :=
            resume get_collection start end_ page_size (AtFetch c) self w in
          match ev with
          | Yield r => consume (resume get_collection start end_ page_size)
                         (List.length (PaginatedResponse.records p) + S n)
                         g' (acc ++ [r])%list self' w'
          | Fetched | Advanced =>
              consume (resume get_collection start end_ page_size)
                (List.length (PaginatedResponse.records p) + S n) g' acc self' w'
          | StopAsyncIteration => (acc, Exhausted, self', w')
          | Thrown e => (acc, Propagated e, self', w')
          end).
  assert (Hres : resume get_collection start end_ page_size (AtFetch c) self w
                 = (Fetched,
                    InPage (PaginatedResponse.records p) (PaginatedResponse.next_token p),
                    self1, w1))
    by (unfold resume; rewrite Hget; reflexivity).
  rewrite Hres. cbv beta iota.
  rewrite consume_yields. simpl.
  destruct (truthy_opt (PaginatedResponse.next_token p)); reflexivity.
Qed.

(** C3, as the code has it.  After the records of the page just fetched
    have been yielded, the generator ends if and only if that page's
    [next_token] is [None] or the empty string; the number of records plays
    no part.  With any other cursor, also after an empty page, it goes round
    the loop and its next act is to call the accessor with that cursor. *)
Theorem termination_by_cursor_only (c : option string) (p : PaginatedResponse.t R)
    (self self1 : WhoopClient) (w w1 : World) (acc : list R) (n : nat) :
  get_collection page_size start end_ c self w = (Return p, self1, w1) ->
  let nt := PaginatedResponse.next_token p in
  let fuel := S (List.length (PaginatedResponse.records p) + S n) in
  (resume get_collection start end_ page_size (InPage [] nt) self1 w1
   = (StopAsyncIteration, Finished, self1, w1)
   <-> nt = None \/ nt = Some "") /\
  (nt = None \/ nt = Some "" ->
   consume (resume get_collection start end_ page_size) fuel (AtFetch c) acc self w
   = ((acc ++ PaginatedResponse.records p)%list, Exhausted, self1, w1)) /\
  (forall t, nt = Some t -> t <> "" ->
     resume get_collection start end_ page_size (InPage [] nt) self1 w1
     = (Advanced, AtFetch (Some t), self1, w1) /\
     consume (resume get_collection start end_ page_size) fuel (AtFetch c) acc self w
     = consume (resume get_collection start end_ page_size) n (AtFetch (Some t))
         (acc ++ PaginatedResponse.records p)%list self1 w1 /\
     resume get_collection start end_ page_size (AtFetch (Some t)) self1 w1
     = let '(o, self2, w2) := get_collection page_size start end_ (Some t) self1 w1 in
       match o with
       | Return p2 =>
           (Fetched,
            InPage (PaginatedResponse.records p2) (PaginatedResponse.next_token p2),
            self2, w2)
       | Raise e => (Thrown e, Finished, self2, w2)
       end).
Proof.
  intros Hget nt fuel.
  pose proof (consume_page c p self self1 w w1 acc n Hget) as Hpage.
  fold nt fuel in Hpage.
  split; [ | split ].
  - unfold resume. rewrite <- truthy_opt_false.
    destruct (truthy_opt nt); simpl; split; intro H;
      try reflexivity; try discriminate.
  - intro Hnt. apply truthy_opt_false in Hnt. rewrite Hpage, Hnt. reflexivity.
  - intros t Ht Hne.
    assert (Htr : truthy_opt nt = true) by (apply truthy_opt_true; eauto).
    split; [ | split ].
    + unfold resume. rewrite Htr. simpl. rewrite Ht. reflexivity.
    + rewrite Hpage, Htr, Ht. reflexivity.
    + reflexivity.
Qed.

(** A walk over pages [ps] is consumed in [transitions ps] transitions: the
    consumer receives the records of all pages in order and the generator
    ends. *)
Lemma walked_consume (c : option string) (self self' : WhoopClient) (w w' : World)
    (ps : list (PaginatedResponse.t R)) :
  walked get_collection start end_ page_size c self w ps self' w' ->
  forall acc n,
    consume (resume get_collection start end_ page_size)
      (transitions ps + n) (AtFetch c) acc self w
    = ((acc ++ all_records ps)%list, Exhausted, self', w').
Proof.
  induction 1 as [c self w p self1 w1 Hget Hnt
                 |c self w p self1 w1 ps self2 w2 Hget Hnt Hrest IH]; intros acc n.
  - simpl transitions. simpl Nat.add.
    replace (List.length (PaginatedResponse.records p) + 1 + n)%nat
      with (List.length (PaginatedResponse.records p) + S n)%nat by lia.
    rewrite (consume_page c p self self1 w w1 acc n Hget), Hnt.
    unfold all_records. simpl. rewrite app_nil_r. reflexivity.
  - simpl transitions. simpl Nat.add.
    replace (List.length (PaginatedResponse.records p) + S (transitions ps) + n)%nat
      with (List.length (PaginatedResponse.records p) + S (transitions ps + n))%nat by lia.
    rewrite (consume_page c p self self1 w w1 acc _ Hget), Hnt, IH.
    unfold all_records. simpl. rewrite app_assoc. reflexivity.
Qed.

(** Conversely, whenever a consumer sees the generator end, the walk went
    over pages of which exactly the last had no truthy cursor. *)
Lemma consume_walked (fuel : nat) :
  forall (g : Gen R) (acc out : list R) (self self' : WhoopClient) (w w' : World),
    consume (resume get_collection start end_ page_size) fuel g acc self w
    = (out, Exhausted, self', w') ->
    match g with
    | AtFetch c =>
        exists ps, walked get_collection start end_ page_size c self w ps self' w' /\
                   out = (acc ++ all_records ps)%list
    | InPage rs nt =>
        (truthy_opt nt = false /\ out = (acc ++ rs)%list /\ self' = self /\ w' = w) \/
        (truthy_opt nt = true /\
         exists ps, walked get_collection start end_ page_size nt self w ps self' w' /\
                    out = ((acc ++ rs) ++ all_records ps)%list)
    | Finished => out = acc /\ self' = self /\ w' = w
    end.
Proof.
  induction fuel as [|fuel IH]; intros g acc out self self' w w' Hrun;
    [ discriminate | ].
  simpl in Hrun. destruct g as [c | [|r rs] nt | ].
  - unfold resume in Hrun.
    destruct (get_collection page_size start end_ c self w) as [[o self1] w1] eqn:Hget.
    destruct o as [p|e]; [ | discriminate ].
    apply IH in Hrun.
    destruct Hrun as [(Hnt & -> & -> & ->) | (Hnt & ps & Hw & ->)].
    + exists [p]. split; [ apply walked_last; assumption | ].
      unfold all_records. simpl. rewrite app_nil_r. reflexivity.
    + exists (p :: ps). split; [ eapply walked_more; eassumption | ].
      unfold all_records. simpl. rewrite app_assoc. reflexivity.
  - unfold resume in Hrun. destruct (truthy_opt nt) eqn:Hnt; simpl in Hrun.
    + apply IH in Hrun. right. split; [ reflexivity | ].
      destruct Hrun as (ps & Hw & ->). exists ps. rewrite app_nil_r.
      split; [ exact Hw | reflexivity ].
    + inversion Hrun; subst. left. rewrite app_nil_r. auto.
  - unfold resume in Hrun. apply IH in Hrun.
    destruct Hrun as [(Hnt & -> & -> & ->) | (Hnt & ps & Hw & ->)].
    + left. rewrite <- app_assoc. auto.
    + right. split; [ assumption | ]. exists ps.
      split; [ exact Hw | rewrite <- (app_assoc acc [r] rs); reflexivity ].
  - inversion Hrun; subst. auto.
Qed.

End Driver.

Lemma get_cycle_collection_fetch (limit : Z) (start end_ : option datetime)
    (next_token : option string) :
  get_cycle_collection limit start end_ next_token
  = fetch_page validate_Cycle "/v2/cycle"
      (collection_params limit start end_ next_token).
Proof. reflexivity. Qed.

(** C2. Against a server that answers the first collection call with
    page [{records: [A, B], next_token: "t2"}] and the second with
    [{records: [C], next_token: null}], a consumer of [iterate_cycles]
    receives exactly [A, B, C] in that order and the generator ends; exactly
    two calls are made, both collection calls; the first carries no
    [nextToken], the second carries [nextToken=t2]. *)
Theorem two_page_walk (self : WhoopClient) (w : World) (tok : string)
    (expiry : Instant) (A B C : Cycle) (kwargs1 kwargs2 : list (string * Json))
    (elapsed1 elapsed2 : Z) (start end_ : option datetime) (page_size : Z)
    (fuel : nat) :
  access_token (auth self) = Some tok -> truthy tok = true ->
  _token_expiry (auth self) = Some expiry ->
  clock w < expiry -> clock w + elapsed1 < expiry ->
  let query1 := collection_params page_size start end_ None in
  let query2 := collection_params page_size start end_ (Some "t2") in
  let call1 := resource_call self tok "GET" "/v2/cycle" (Some query1) None in
  let call2 := resource_call self tok "GET" "/v2/cycle" (Some query2) None in
  network w (trace w) call1
  = Replied {| status_code := 200; body := Some (JObj kwargs1) |} elapsed1 ->
  network w (trace w ++ [call1])%list call2
  = Replied {| status_code := 200; body := Some (JObj kwargs2) |} elapsed2 ->
  PaginatedResponse_validate validate_Cycle kwargs1
  = Some {| PaginatedResponse.records := [A; B];
            PaginatedResponse.next_token := Some "t2" |} ->
  PaginatedResponse_validate validate_Cycle kwargs2
  = Some {| PaginatedResponse.records := [C];
            PaginatedResponse.next_token := None |} ->
  (7 <= fuel)%nat ->
  exists w',
    consume (iterate_cycles start end_ page_size) fuel iterate_start [] self w
    = ([A; B; C], Exhausted, self, w') /\
    calls_since w w' = [call1; call2] /\
    dict_get "nextToken" query1 = None /\
    dict_get "nextToken" query2 = Some (PStr "t2").
Proof.
  intros Hat Htok Hexp Hlt1 Hlt2 query1 query2 call1 call2 Hnet1 Hnet2 Hp1 Hp2 Hfuel.
  set (w1 := after_call w call1 elapsed1).
  set (w2 := after_call w1 call2 elapsed2).
  exists w2.
  assert (Hg1 : get_cycle_collection page_size start end_ None self w
                = (Return {| PaginatedResponse.records := [A; B];
                             PaginatedResponse.next_token := Some "t2" |}, self, w1)).
  { rewrite get_cycle_collection_fetch.
    apply fetch_page_fresh with (expiry := expiry) (kwargs := kwargs1); assumption. }
  assert (Hg2 : get_cycle_collection page_size start end_ (Some "t2") self w1
                = (Return {| PaginatedResponse.records := [C];
                             PaginatedResponse.next_token := None |}, self, w2)).
  { rewrite get_cycle_collection_fetch.
    apply fetch_page_fresh with (expiry := expiry) (kwargs := kwargs2);
      try assumption; exact Hnet2. }
  split; [ | split; [ | split ] ].
  - do 7 (destruct fuel as [|fuel]; [ lia | ]).
    unfold iterate_cycles, iterate_start.
    etransitivity;
      [ exact (consume_page get_cycle_collection start end_ page_size None _
                 self self w w1 [] (S (S (S fuel))) Hg1) | ].
    simpl.
    exact (consume_page get_cycle_collection start end_ page_size (Some "t2") _
             self self w1 w2 [A; B] fuel Hg2).
  - apply calls_since_app. simpl. rewrite <- app_assoc. reflexivity.
  - unfold query1, collection_params. destruct start, end_; reflexivity.
  - unfold query2, collection_params. destruct start, end_; reflexivity.
Qed.

(** ** The authorization URL *)

Lemma contains_app (x : ascii) (a b : string) :
  urllib.contains x (a ++ b) = (urllib.contains x a || urllib.contains x b)%bool.
Proof.
  induction a as [|c a IH]; simpl; [ reflexivity | ].
  rewrite IH. apply orb_assoc.
Qed.

(** A quoted byte holds neither [&] nor [=], with or without the space
    kept safe. *)
Lemma quoter_clean (x : ascii) (safe : list ascii) (c : ascii) :
  x = "&"%char \/ x = "="%char ->
  safe = [] \/ safe = [" "%char] ->
  urllib.contains x (urllib.quoter safe c) = false.
Proof.
  intros [-> | ->] [-> | ->];
    destruct c as [[] [] [] [] [] [] [] []]; reflexivity.
Qed.

Lemma quote_from_bytes_clean (x : ascii) (safe : list ascii) (s : string) :
  x = "&"%char \/ x = "="%char ->
  safe = [] \/ safe = [" "%char] ->
  urllib.contains x (urllib.quote_from_bytes safe s) = false.
Proof.
  intros Hx Hsafe. induction s as [|c s IH]; simpl; [ reflexivity | ].
  rewrite contains_app, IH, (quoter_clean x safe c Hx Hsafe). reflexivity.
Qed.

Lemma replace_clean (a b x : ascii) (s : string) :
  urllib.contains x s = false -> Ascii.eqb x b = false ->
  urllib.contains x (urllib.replace a b s) = false.
Proof.
  intros Hs Hb. induction s as [|c s IH]; simpl in *; [ reflexivity | ].
  apply orb_false_elim in Hs. destruct Hs as [Hc Hr].
  rewrite (IH Hr). destruct (Ascii.eqb c a); [ rewrite Hb | rewrite Hc ]; reflexivity.
Qed.

Lemma quote_plus_clean (x : ascii) (s : string) :
  x = "&"%char \/ x = "="%char ->
  urllib.contains x (urllib.quote_plus s) = false.
Proof.
  intro Hx. unfold urllib.quote_plus, urllib.quote.
  destruct (negb (urllib.contains " " s)).
  - apply quote_from_bytes_clean; auto.
  - apply replace_clean.
    + apply quote_from_bytes_clean; auto.
    + destruct Hx as [-> | ->]; reflexivity.
Qed.

Lemma split_on_clean (sep : ascii) (s : string) :
  urllib.contains sep s = false -> urllib.split_on sep s = [s].
Proof.
  induction s as [|c s IH]; simpl; [ reflexivity | ].
  intro H. apply orb_false_elim in H. destruct H as [Hc Hs].
  rewrite Ascii.eqb_sym, Hc, (IH Hs). reflexivity.
Qed.

Lemma split_on_app (sep : ascii) (s t : string) :
  urllib.contains sep s = false ->
  urllib.split_on sep (s ++ String sep t) = s :: urllib.split_on sep t.
Proof.
  induction s as [|c s IH]; simpl.
  - intros _. rewrite Ascii.eqb_refl. reflexivity.
  - intro H. apply orb_false_elim in H. destruct H as [Hc Hs].
    rewrite Ascii.eqb_sym, Hc, (IH Hs). reflexivity.
Qed.

(** Splitting a joined list of fields gives the fields back. *)
Lemma split_on_concat (sep : ascii) (f : string) (fs : list string) :
  Forall (fun s => urllib.contains sep s = false) (f :: fs) ->
  urllib.split_on sep (String.concat (String sep "") (f :: fs)) = f :: fs.
Proof.
  revert f. induction fs as [|g fs IH]; intros f Hall.
  - simpl. apply split_on_clean. inversion Hall; assumption.
  - inversion Hall as [|? ? Hf Hrest]; subst.
    change (String.concat (String sep "") (f :: g :: fs))
      with (f ++ String sep (String.concat (String sep "") (g :: fs))).
    rewrite (split_on_app sep f _ Hf), (IH g Hrest). reflexivity.
Qed.

(** The field [k=v] of [urlencode]. *)
Lemma field_clean (k v : string) :
  urllib.contains "&" (urllib.quote_plus k ++ "=" ++ urllib.quote_plus v) = false.
Proof.
  rewrite contains_app. simpl.
  rewrite !quote_plus_clean by auto. reflexivity.
Qed.

Lemma split_urlencode (kv : string * string) (query : list (string * string)) :
  urllib.split_on "&" (urllib.urlencode (kv :: query))
  = map (fun kv => urllib.quote_plus (fst kv) ++ "=" ++ urllib.quote_plus (snd kv))
        (kv :: query).
Proof.
  unfold urllib.urlencode. simpl map. apply split_on_concat.
  constructor; [ apply field_clean | ].
  apply Forall_forall. intros s Hs. apply in_map_iff in Hs.
  destruct Hs as (kv' & <- & _). apply field_clean.
Qed.

(** C7, as the code has it.  [get_authorization_url] is a function of the
    handler's authorization endpoint, client id, redirect URI and scopes and
    of [state] alone.  Its query string has the fields [response_type=code],
    [client_id], the URL-encoded [redirect_uri] and the space-joined, then
    URL-encoded scope list, in that order, followed by a [state] field if
    and only if a non-empty [state] was supplied. *)
Theorem authorization_url_fields (h : OAuth2Handler) (state : option string) :
  let q := urllib.urlencode (authorization_params h state) in
  get_authorization_url h state = auth_base_url h ++ "?" ++ q /\
  urllib.split_on "&" q
  = List.app
      ["response_type=code";
       "client_id=" ++ urllib.quote_plus (client_id h);
       "redirect_uri=" ++ urllib.quote_plus (redirect_uri h);
       "scope=" ++ urllib.quote_plus (String.concat " " (scopes h))]
      match state with
      | Some st => if truthy st then ["state=" ++ urllib.quote_plus st] else []
      | None => []
      end /\
  (In "state" (urllib.query_keys q) <-> exists st, state = Some st /\ st <> "") /\
  (forall h2,
      auth_base_url h2 = auth_base_url h -> client_id h2 = client_id h ->
      redirect_uri h2 = redirect_uri h -> scopes h2 = scopes h ->
      get_authorization_url h2 state = get_authorization_url h state).
Proof.
  cbv zeta.
  assert (Hsplit :
    urllib.split_on "&" (urllib.urlencode (authorization_params h state))
    = List.app
        ["response_type=code";
         "client_id=" ++ urllib.quote_plus (client_id h);
         "redirect_uri=" ++ urllib.quote_plus (redirect_uri h);
         "scope=" ++ urllib.quote_plus (String.concat " " (scopes h))]
        match state with
        | Some st => if truthy st then ["state=" ++ urllib.quote_plus st] else []
        | None => []
        end).
  { unfold authorization_params.
    destruct state as [[|c st]|]; unfold truthy; simpl dict_set;
      rewrite split_urlencode; reflexivity. }
  split; [ reflexivity | ]. split; [ exact Hsplit | ]. split.
  - unfold urllib.query_keys. rewrite Hsplit.
    destruct state as [[|c st]|]; simpl; split.
    + intros [H | [H | [H | [H | []]]]]; discriminate.
    + intros (st & H & Hne). inversion H; subst. contradiction.
    + intros _. exists (String c st). split; [ reflexivity | discriminate ].
    + intros _. right; right; right; right; left. reflexivity.
    + intros [H | [H | [H | [H | []]]]]; discriminate.
    + intros (st & H & _). discriminate.
  - intros h2 Hb Hc Hr Hs. unfold get_authorization_url, authorization_params.
    rewrite Hb, Hc, Hr, Hs. reflexivity.
Qed.

(** * Further properties of the code *)

(** ** The Token Store over time *)

(** X1. Once a credential has been stored, [is_token_expired()] answers
    [True] exactly from [expires_in - 300] seconds after the store on, at
    whatever instant it is asked, and asking changes nothing. *)
Theorem expiry_threshold (h : OAuth2Handler) (w : World) (td : TokenResponse.t)
    (h' : OAuth2Handler) (w' : World) :
  stores h w td h' w' ->
  forall w2,
    is_token_expired h' w2
    = (Return (clock w' + (TokenResponse.expires_in td - 300) * usec_per_sec
               <=? clock w2), h', w2).
Proof.
  intros Hs w2. rewrite is_token_expired_eq.
  rewrite (expiry_buffer_later h w td h' w' (clock w2) Hs). reflexivity.
Qed.

Lemma _store_token_storable (td : TokenResponse.t) (h : OAuth2Handler) (w : World) :
  _store_token td h w =
  if storable (clock w) td
  then (Return tt,
        set__token_expiry (Some (expiry_of (clock w) td)) (set__token_data (Some td) h),
        w)
  else (Raise OverflowError, set__token_data (Some td) h, w).
Proof.
  rewrite _store_token_cases. unfold storable, timedelta_seconds, datetime_add, expiry_of.
  cbv zeta.
  destruct (- max_delta_days <=? (TokenResponse.expires_in td - 300) / sec_per_day);
    destruct ((TokenResponse.expires_in td - 300) / sec_per_day <=? max_delta_days);
    simpl; try reflexivity.
  destruct (0 <=? clock w + (TokenResponse.expires_in td - 300) * usec_per_sec);
    destruct (clock w + (TokenResponse.expires_in td - 300) * usec_per_sec <? datetime_end);
    reflexivity.
Qed.

(** An [expires_in] of at least 300 is storable at any instant of the
    range whose expiry instant is still within the range. *)
Lemma storable_in_range (now : Instant) (td : TokenResponse.t) :
  0 <= now -> 300 <= TokenResponse.expires_in td ->
  now + (TokenResponse.expires_in td - 300) * usec_per_sec < datetime_end ->
  storable now td = true.
Proof.
  intros Hnow He Hend. unfold storable. cbv zeta.
  unfold datetime_end, max_ordinal, sec_per_day, usec_per_sec, max_delta_days in *.
  set (n := TokenResponse.expires_in td - 300) in *.
  assert (0 <= n) by (unfold n; lia).
  assert (0 <= n / 86400) by (apply Z.div_pos; lia).
  assert (n / 86400 < 3652059) by (apply Z.div_lt_upper_bound; lia).
  repeat rewrite andb_true_iff. repeat split.
  - apply Z.leb_le. lia.
  - apply Z.leb_le. lia.
  - apply Z.leb_le. lia.
  - apply Z.ltb_lt. lia.
Qed.

(** X2. [set_tokens] returns exactly when the expiry instant is one Python
    can compute, and then the handler holds the given pair of tokens with
    that instant; otherwise it raises [OverflowError].  It never uses the
    network.  Any [expires_in >= 300] whose expiry instant lies before year
    10000 is fine. *)
Theorem set_tokens_outcome (a r : string) (e : Z) (h : OAuth2Handler) (w : World) :
  let td := {| TokenResponse.access_token := a;
               TokenResponse.token_type := "bearer";
               TokenResponse.expires_in := e;
               TokenResponse.refresh_token := Some r;
               TokenResponse.scope := None |} in
  (exists o h', set_tokens a r e h w = (o, h', w) /\
                (o = Return tt <-> storable (clock w) td = true) /\
                (o = Raise OverflowError <-> storable (clock w) td = false) /\
                (o = Return tt ->
                 access_token h' = Some a /\ refresh_token h' = Some r /\
                 _token_expiry h' = Some (clock w + (e - 300) * usec_per_sec))) /\
  (0 <= clock w -> 300 <= e -> clock w + (e - 300) * usec_per_sec < datetime_end ->
   storable (clock w) td = true).
Proof.
  cbv zeta. split.
  - unfold set_tokens. rewrite _store_token_storable.
    destruct (storable (clock w) _) eqn:Hs; do 2 eexists;
      (split; [ reflexivity | ]); repeat split; try discriminate; try reflexivity.
  - intros. apply storable_in_range; assumption.
Qed.

(** ** Token exchanges that succeed, and responses that do not decode *)

(** X3. When the token endpoint answers 2xx with a body that decodes to a
    credential whose expiry instant can be computed, [exchange_code] and
    [refresh_access_token] return that credential after their one call,
    and the handler then answers with its access and refresh tokens and
    holds the expiry instant counted from the arrival of the response. *)
Theorem token_exchange_success (h : OAuth2Handler) (w : World) (r : Response)
    (elapsed : Z) (kwargs : list (string * Json)) (td : TokenResponse.t) :
  200 <= status_code r <= 299 ->
  body r = Some (JObj kwargs) ->
  TokenResponse_validate kwargs = Some td ->
  storable (clock w + elapsed) td = true ->
  let h' := set__token_expiry (Some (expiry_of (clock w + elapsed) td))
              (set__token_data (Some td) h) in
  (forall code,
      network w (trace w) (exchange_call h code) = Replied r elapsed ->
      exchange_code code h w
      = (Return td, h', after_call w (exchange_call h code) elapsed)) /\
  (forall rt,
      network w (trace w) (refresh_call h rt) = Replied r elapsed ->
      refresh_access_token rt h w
      = (Return td, h', after_call w (refresh_call h rt) elapsed)) /\
  access_token h' = Some (TokenResponse.access_token td) /\
  refresh_token h' = TokenResponse.refresh_token td /\
  config h' = config h.
Proof.
  intros Hst Hbody Hval Hstor h'.
  assert (Hok : is_success r = true).
  { unfold is_success. apply andb_true_iff. split; apply Z.leb_le; lia. }
  assert (Hd : forall c, decode_and_store r h (after_call w c elapsed)
                         = (Return td, h', after_call w c elapsed)).
  { intro c. rewrite decode_and_store_cases, Hok, Hbody, Hval.
    rewrite _store_token_storable. simpl clock. rewrite Hstor. reflexivity. }
  split; [ | split; [ | repeat split ] ].
  - intros code Hnet. rewrite exchange_code_cases, Hnet. apply Hd.
  - intros rt Hnet. rewrite refresh_access_token_cases, Hnet. apply Hd.
Qed.

(** X4. A 2xx answer of the token endpoint that does not decode stops
    [exchange_code] and [refresh_access_token] with the handler untouched:
    [JSONDecodeError] for a body that is not JSON, [TypeError] for JSON that
    is not an object, [ValidationError] for an object that lacks
    [access_token], [token_type] or [expires_in]. *)
Theorem undecodable_token_response (h : OAuth2Handler) (w : World)
    (op : M OAuth2Handler TokenResponse.t) (call : HttpCall)
    (r : Response) (elapsed : Z) :
  (exists code, op = exchange_code code /\ call = exchange_call h code) \/
  (exists rt, op = refresh_access_token rt /\ call = refresh_call h rt) ->
  network w (trace w) call = Replied r elapsed ->
  200 <= status_code r <= 299 ->
  let w' := after_call w call elapsed in
  (body r = None -> op h w = (Raise JSONDecodeError, h, w')) /\
  (forall j, body r = Some j -> not_a_mapping j -> op h w = (Raise TypeError, h, w')) /\
  (forall kwargs,
      body r = Some (JObj kwargs) ->
      dict_get "access_token" kwargs = None \/
      dict_get "token_type" kwargs = None \/
      dict_get "expires_in" kwargs = None ->
      op h w = (Raise ValidationError, h, w')).
Proof.
  intros Hop Hnet Hst w'.
  assert (Hok : is_success r = true).
  { unfold is_success. apply andb_true_iff. split; apply Z.leb_le; lia. }
  assert (Hrun : op h w = decode_and_store r h w').
  { destruct Hop as [(code & -> & ->) | (rt & -> & ->)].
    - rewrite exchange_code_cases, Hnet. reflexivity.
    - rewrite refresh_access_token_cases, Hnet. reflexivity. }
  rewrite Hrun, decode_and_store_cases, Hok. split; [ | split ].
  - intros ->. reflexivity.
  - intros j -> Hj. destruct j; try reflexivity. contradiction.
  - intros kw -> Hmiss.
    assert (Hv : TokenResponse_validate kw = None).
    { unfold TokenResponse_validate, required.
      destruct Hmiss as [-> | [-> | ->]]; [ reflexivity | | ].
      - destruct (dict_get "access_token" kw) as [j|]; [ | reflexivity ].
        destruct (validate_str j); reflexivity.
      - destruct (dict_get "access_token" kw) as [j|]; [ | reflexivity ].
        destruct (validate_str j); [ | reflexivity ].
        destruct (dict_get "token_type" kw) as [j2|]; [ | reflexivity ].
        destruct (validate_str j2); reflexivity. }
    rewrite Hv. reflexivity.
Qed.

(** ** What no operation touches *)

Lemma _store_token_config (td : TokenResponse.t) (h h' : OAuth2Handler)
    (w w' : World) (o : Outcome unit) :
  _store_token td h w = (o, h', w') -> config h' = config h.
Proof.
  rewrite _store_token_storable.
  destruct (storable (clock w) td); intro H; inversion H; reflexivity.
Qed.

Lemma decode_and_store_config (r : Response) (h h' : OAuth2Handler)
    (w w' : World) (o : Outcome TokenResponse.t) :
  decode_and_store r h w = (o, h', w') -> config h' = config h.
Proof.
  rewrite decode_and_store_cases.
  destruct (is_success r); [ | intro H; inversion H; reflexivity ].
  destruct (body r) as [[| | | | | |kw]|]; try (intro H; inversion H; reflexivity).
  destruct (TokenResponse_validate kw) as [td|];
    [ | intro H; inversion H; reflexivity ].
  destruct (_store_token td h w) as [[o1 h1] w1] eqn:Hs.
  apply _store_token_config in Hs.
  destruct o1; intro H; inversion H; subst; exact Hs.
Qed.

Lemma refresh_access_token_config (rt : string) (h h' : OAuth2Handler)
    (w w' : World) (o : Outcome TokenResponse.t) :
  refresh_access_token rt h w = (o, h', w') -> config h' = config h.
Proof.
  rewrite refresh_access_token_cases.
  destruct (network w (trace w) _).
  - apply decode_and_store_config.
  - intro H; inversion H; reflexivity.
Qed.

(** X5. Whatever they end in, [set_tokens], [exchange_code],
    [refresh_access_token] and [_request] leave the configuration alone:
    client id and secret, redirect URI, scopes, the two OAuth2 URLs, and
    for [_request] the base URL and the timeout of the client.  Only the
    Token Store changes. *)
Theorem configuration_is_kept :
  (forall a r e h w o h' w',
      set_tokens a r e h w = (o, h', w') -> config h' = config h) /\
  (forall code h w o h' w',
      exchange_code code h w = (o, h', w') -> config h' = config h) /\
  (forall rt h w o h' w',
      refresh_access_token rt h w = (o, h', w') -> config h' = config h) /\
  (forall method endpoint query js self w o self' w',
      _request method endpoint query js self w = (o, self', w') ->
      config (auth self') = config (auth self) /\
      base_url self' = base_url self /\ timeout self' = timeout self).
Proof.
  split; [ | split; [ | split ] ].
  - intros a r e h w o h' w'. unfold set_tokens. apply _store_token_config.
  - intros code h w o h' w'. rewrite exchange_code_cases.
    destruct (network w (trace w) _).
    + apply decode_and_store_config.
    + intro H; inversion H; reflexivity.
  - intros rt h w o h' w'. apply refresh_access_token_config.
  - intros method endpoint query js self w o self' w'. rewrite _request_cases.
    assert (Hd : forall s0 w0 o0 s1 w1,
               dispatch method endpoint query js s0 w0 = (o0, s1, w1) -> s1 = s0).
    { intros s0 w0 o0 s1 w1 H. apply dispatch_trace in H. tauto. }
    destruct (needs_refresh (auth self) w);
      [ | intro H; apply Hd in H; subst; auto ].
    destruct (refresh_token (auth self)) as [rt|];
      [ | intro H; apply Hd in H; subst; auto ].
    destruct (refresh_access_token rt (auth self) w) as [[ro h1] w1] eqn:Hr.
    apply refresh_access_token_config in Hr.
    destruct ro.
    + intro H; apply Hd in H; subst. simpl. auto.
    + intro H; inversion H; subst. simpl. auto.
Qed.

(** ** The gateway, call by call *)

Lemma fresh_needs_no_refresh (self : WhoopClient) (w : World) (tok : string) :
  fresh self w tok -> needs_refresh (auth self) w = false.
Proof.
  intros (_ & _ & He). unfold needs_refresh. rewrite He. reflexivity.
Qed.

Lemma request_with_fresh_token_aux (method endpoint : string)
    (query : option (list (string * PVal))) (js : option Json)
    (self : WhoopClient) (w : World) (tok : string) :
  fresh self w tok ->
  _request method endpoint query js self w
  = (match network w (trace w) (resource_call self tok method endpoint query js) with
     | Failed _ => Raise RequestError
     | Replied r _ =>
         if is_success r then Return r else Raise (HTTPStatusError (status_code r))
     end, self,
     after_call w (resource_call self tok method endpoint query js)
       (elapsed_of (network w (trace w)
                      (resource_call self tok method endpoint query js)))).
Proof.
  intros Hf.
  rewrite _request_cases, (fresh_needs_no_refresh _ _ _ Hf), dispatch_cases.
  destruct Hf as (-> & -> & _). cbv zeta.
  destruct (network w (trace w) _) as [r el|el]; [ destruct (is_success r) | ];
    reflexivity.
Qed.

(** X6. Under an access token that is not yet expired, [_request] makes
    exactly one call, the resource call with that bearer token, and never a
    second attempt: a 2xx response is returned as it is, any other status
    is raised as [HTTPStatusError] with that status, a transport failure as
    [RequestError]; the client is left as it was. *)
Theorem request_with_fresh_token (method endpoint : string)
    (query : option (list (string * PVal))) (js : option Json)
    (self : WhoopClient) (w : World) (tok : string) :
  fresh self w tok ->
  let c := resource_call self tok method endpoint query js in
  let reply := network w (trace w) c in
  _request method endpoint query js self w
  = (match reply with
     | Failed _ => Raise RequestError
     | Replied r _ =>
         if is_success r then Return r else Raise (HTTPStatusError (status_code r))
     end, self, after_call w c (elapsed_of reply)).
Proof.
  intros Hf c reply.
  exact (request_with_fresh_token_aux method endpoint query js self w tok Hf).
Qed.

(** X7. In any state of the client a request makes at most two calls: at
    most one refresh call, then at most one resource call.  The refresh call
    uses the refresh token on record; the resource call carries the access
    token the handler holds when the request is over, so after a refresh the
    new one; and a request that makes no resource call has raised. *)
Theorem request_makes_at_most_two_calls (method endpoint : string)
    (query : option (list (string * PVal))) (js : option Json)
    (self self' : WhoopClient) (w w' : World) (o : Outcome Response) :
  _request method endpoint query js self w = (o, self', w') ->
  exists pre post,
    calls_since w w' = (pre ++ post)%list /\
    (pre = [] \/
     exists rt, refresh_token (auth self) = Some rt /\
                pre = [refresh_call (auth self) rt]) /\
    (post = [] \/
     exists tok, access_token (auth self') = Some tok /\
                 post = [resource_call self tok method endpoint query js]) /\
    (post = [] -> exists e, o = Raise e).
Proof.
  rewrite _request_cases.
  assert (Hd : forall s0 w0 o0 s1 w1,
             dispatch method endpoint query js s0 w0 = (o0, s1, w1) ->
             s1 = s0 /\
             exists post,
               trace w1 = (trace w0 ++ post)%list /\
               (post = [] \/
                exists tok, access_token (auth s0) = Some tok /\
                            post = [resource_call s0 tok method endpoint query js]) /\
               (post = [] -> exists e, o0 = Raise e)).
  { intros s0 w0 o0 s1 w1 H. apply dispatch_trace in H. destruct H as [-> H].
    split; [ reflexivity | ].
    destruct (access_token (auth s0)) as [tok|]; [ destruct (truthy tok) | ].
    - exists [resource_call s0 tok method endpoint query js].
      split; [ exact H | ]. split; [ right; eauto | discriminate ].
    - destruct H as [-> ->]. exists []. rewrite app_nil_r. eauto.
    - destruct H as [-> ->]. exists []. rewrite app_nil_r. eauto. }
  destruct (needs_refresh (auth self) w).
  - destruct (refresh_token (auth self)) as [rt|] eqn:Hrt.
    + destruct (refresh_access_token rt (auth self) w) as [[ro h1] w1] eqn:Hr.
      apply refresh_access_token_trace in Hr. destruct Hr as [Htr _].
      destruct ro as [td|e].
      * intro H. apply Hd in H. destruct H as (-> & post & Hp & Hpost & Hnone).
        exists [refresh_call (auth self) rt], post. split; [ | split; [ | split ] ].
        -- apply calls_since_app. rewrite Hp, Htr, <- app_assoc. reflexivity.
        -- right. eauto.
        -- exact Hpost.
        -- exact Hnone.
      * intro H; inversion H; subst.
        exists [refresh_call (auth self) rt], []. split; [ | split; [ | split ] ].
        -- apply calls_since_app. rewrite Htr. reflexivity.
        -- right. eauto.
        -- left; reflexivity.
        -- intros _. eauto.
    + intro H. apply Hd in H. destruct H as (-> & post & Hp & Hpost & Hnone).
      exists [], post. split; [ apply calls_since_app; exact Hp | ]. auto.
  - intro H. apply Hd in H. destruct H as (-> & post & Hp & Hpost & Hnone).
    exists [], post. split; [ apply calls_since_app; exact Hp | ]. auto.
Qed.

(** X8. Refresh on demand, then reuse.  A request made with an expired
    token and a refresh token on record refreshes first; if the refresh
    succeeds with a usable access token, a second request made while the
    new token has not expired makes its resource call only, under the new
    token.  The three calls are all there is. *)
Theorem refreshed_token_is_reused (self : WhoopClient) (w : World) (rt : string)
    (r : Response) (elapsed : Z) (kwargs : list (string * Json))
    (td : TokenResponse.t)
    (method1 endpoint1 method2 endpoint2 : string)
    (query1 query2 : option (list (string * PVal))) (js1 js2 : option Json) :
  is_token_expired (auth self) w = (Return true, auth self, w) ->
  refresh_token (auth self) = Some rt -> rt <> "" ->
  network w (trace w) (refresh_call (auth self) rt) = Replied r elapsed ->
  200 <= status_code r <= 299 ->
  body r = Some (JObj kwargs) ->
  TokenResponse_validate kwargs = Some td ->
  storable (clock w + elapsed) td = true ->
  truthy (TokenResponse.access_token td) = true ->
  let tok := TokenResponse.access_token td in
  let w1 := after_call w (refresh_call (auth self) rt) elapsed in
  let c1 := resource_call self tok method1 endpoint1 query1 js1 in
  let c2 := resource_call self tok method2 endpoint2 query2 js2 in
  clock w1 + elapsed_of (network w (trace w1) c1) < expiry_of (clock w1) td ->
  exists o1 self1 w2 o2 w3,
    _request method1 endpoint1 query1 js1 self w = (o1, self1, w2) /\
    _request method2 endpoint2 query2 js2 self1 w2 = (o2, self1, w3) /\
    access_token (auth self1) = Some tok /\
    calls_since w w3 = [refresh_call (auth self) rt; c1; c2].
Proof.
  intros Hexp Hrt Hne Hnet Hst Hbody Hval Hstor Htok tok w1 c1 c2 Hlt.
  subst tok.
  set (h1 := set__token_expiry (Some (expiry_of (clock w + elapsed) td))
               (set__token_data (Some td) (auth self))).
  assert (Hok : is_success r = true).
  { unfold is_success. apply andb_true_iff. split; apply Z.leb_le; lia. }
  assert (Href : refresh_access_token rt (auth self) w = (Return td, h1, w1)).
  { rewrite refresh_access_token_cases, Hnet, decode_and_store_cases, Hok, Hbody, Hval.
    rewrite _store_token_storable. simpl clock. rewrite Hstor. reflexivity. }
  set (self1 := set_auth h1 self).
  set (reply1 := network w (trace w1) c1) in *.
  set (w2 := after_call w1 c1 (elapsed_of reply1)).
  assert (Hfirst : exists o1, _request method1 endpoint1 query1 js1 self w
                              = (o1, self1, w2)).
  { rewrite _request_cases, (needs_refresh_true _ _ _ Hexp Hrt Hne), Hrt, Href.
    rewrite dispatch_cases. rewrite auth_set_auth.
    change (access_token h1) with (Some (TokenResponse.access_token td)).
    cbv iota beta. rewrite Htok. cbv zeta.
    change (resource_call (set_auth h1 self) (TokenResponse.access_token td)
              method1 endpoint1 query1 js1) with c1.
    change (network w1 (trace w1) c1) with reply1.
    destruct reply1 as [r1 el1|el1]; [ destruct (is_success r1) | ]; eauto. }
  destruct Hfirst as [o1 Hfirst].
  assert (Hfresh : fresh self1 w2 (TokenResponse.access_token td)).
  { split; [ reflexivity | ]. split; [ exact Htok | ].
    unfold expired_at. simpl _token_expiry. simpl clock in *.
    apply Z.leb_gt. exact Hlt. }
  pose proof (request_with_fresh_token_aux method2 endpoint2 query2 js2 self1 w2
                (TokenResponse.access_token td) Hfresh) as Hsecond.
  eexists o1, self1, w2, _, _. split; [ exact Hfirst | ]. split; [ exact Hsecond | ].
  split; [ reflexivity | ].
  apply calls_since_app. simpl. rewrite <- !app_assoc. reflexivity.
Qed.

(** ** Sessions: injected, and never opened *)

(** X9. A client constructed with both an access and a refresh token, at
    an instant from which 55 minutes can be counted, holds them at once:
    a request made right away makes the resource call only, under the
    injected access token, without any call to the token endpoint; a
    request made 55 minutes later or more starts with a refresh call that
    uses the injected refresh token. *)
Theorem injected_session (cid secret uri a r : string)
    (scopes : option (list string)) (tmo : float) (w : World) :
  a <> "" -> r <> "" ->
  0 <= clock w -> clock w + 3300 * usec_per_sec < datetime_end ->
  exists self,
    WhoopClient_init cid secret uri (Some a) (Some r) scopes tmo w = (Return self, w) /\
    access_token (auth self) = Some a /\
    refresh_token (auth self) = Some r /\
    (forall method endpoint query js,
        exists o w',
          _request method endpoint query js self w = (o, self, w') /\
          calls_since w w' = [resource_call self a method endpoint query js]) /\
    (forall method endpoint query js w2 o self' w',
        clock w + 3300 * usec_per_sec <= clock w2 ->
        _request method endpoint query js self w2 = (o, self', w') ->
        exists rest, calls_since w2 w' = refresh_call (auth self) r :: rest).
Proof.
  intros Ha Hr H0 Hend.
  set (td := {| TokenResponse.access_token := a;
                TokenResponse.token_type := "bearer";
                TokenResponse.expires_in := 3600;
                TokenResponse.refresh_token := Some r;
                TokenResponse.scope := None |}).
  assert (Hstor : storable (clock w) td = true).
  { apply storable_in_range; simpl; try lia. exact Hend. }
  set (h0 := OAuth2Handler_init cid secret uri scopes).
  set (h1 := set__token_expiry (Some (expiry_of (clock w) td))
               (set__token_data (Some td) h0)).
  set (self := {| base_url := "https://api.prod.whoop.com/developer";
                  auth := h1; timeout := tmo |}).
  assert (Hta : truthy a = true) by (destruct a; [ contradiction | reflexivity ]).
  assert (Htr : truthy r = true) by (destruct r; [ contradiction | reflexivity ]).
  assert (Hinit : WhoopClient_init cid secret uri (Some a) (Some r) scopes tmo w
                  = (Return self, w)).
  { unfold WhoopClient_init. rewrite Hta, Htr. simpl andb. cbv iota.
    unfold with_auth, set_tokens. simpl auth. fold td. fold h0.
    rewrite _store_token_storable, Hstor. reflexivity. }
  assert (Hat : access_token (auth self) = Some a) by reflexivity.
  assert (Hrt : refresh_token (auth self) = Some r) by reflexivity.
  assert (Hex : _token_expiry (auth self) = Some (clock w + 3300 * usec_per_sec))
    by reflexivity.
  clearbody self. clear h1 h0 td Hstor.
  exists self. split; [ exact Hinit | ].
  split; [ exact Hat | ]. split; [ exact Hrt | ]. split.
  - intros method endpoint query js.
    assert (Hf : fresh self w a).
    { split; [ exact Hat | ]. split; [ exact Hta | ].
      unfold expired_at. rewrite Hex. apply Z.leb_gt. unfold usec_per_sec. lia. }
    rewrite (request_with_fresh_token_aux method endpoint query js self w a Hf).
    do 2 eexists. split; [ reflexivity | ].
    apply calls_since_app. reflexivity.
  - intros method endpoint query js w2 o self' w' Hlate.
    rewrite _request_cases.
    assert (Hn : needs_refresh (auth self) w2 = true).
    { unfold needs_refresh, expired_at. rewrite Hex, Hrt. simpl truthy_opt.
      rewrite Htr, andb_true_r. apply Z.leb_le. exact Hlate. }
    rewrite Hn, Hrt.
    destruct (refresh_access_token r (auth self) w2) as [[ro h2] w3] eqn:Href.
    apply refresh_access_token_trace in Href. destruct Href as [Htr3 _].
    destruct ro as [td2|e].
    + intro H. apply dispatch_trace in H. destruct H as [_ H].
      destruct (access_token (auth (set_auth h2 self))) as [tok|];
        [ destruct (truthy tok) | ].
      * eexists. apply calls_since_app. rewrite H, Htr3, <- app_assoc. reflexivity.
      * destruct H as [_ ->]. exists []. apply calls_since_app. exact Htr3.
      * destruct H as [_ ->]. exists []. apply calls_since_app. exact Htr3.
    + intro H; inversion H; subst. exists []. apply calls_since_app. exact Htr3.
Qed.

Lemma unauthenticated_request (method endpoint : string)
    (query : option (list (string * PVal))) (js : option Json)
    (self : WhoopClient) (w : World) :
  _token_data (auth self) = None ->
  _request method endpoint query js self w
  = (Raise (ValueError no_access_token), self, w).
Proof.
  intro Hd. rewrite _request_cases.
  assert (Hr : refresh_token (auth self) = None) by (unfold refresh_token; rewrite Hd; reflexivity).
  assert (Hn : needs_refresh (auth self) w = false).
  { unfold needs_refresh. rewrite Hr. apply andb_false_r. }
  rewrite Hn, dispatch_cases. unfold access_token. rewrite Hd. reflexivity.
Qed.

(** Whatever is decoded after the gateway call is never reached. *)
Lemma unauthenticated_accessor {A} (method endpoint : string)
    (query : option (list (string * PVal))) (js : option Json)
    (k : Response -> M WhoopClient A) :
  refuses_unauthenticated (response <- _request method endpoint query js ;; k response).
Proof.
  intros self w Hd. unfold bind at 1.
  rewrite (unauthenticated_request method endpoint query js self w Hd). reflexivity.
Qed.

Lemma unauthenticated_walk {R}
    (get_collection : Z -> option datetime -> option datetime -> option string ->
                      M WhoopClient (PaginatedResponse.t R))
    (start end_ : option datetime) (page_size : Z) (fuel : nat)
    (self : WhoopClient) (w : World) :
  (forall limit s e c, refuses_unauthenticated (get_collection limit s e c)) ->
  _token_data (auth self) = None ->
  consume (resume get_collection start end_ page_size) (S fuel) iterate_start []
    self w
  = ([], Propagated (ValueError no_access_token), self, w).
Proof.
  intros Hget Hd. simpl. unfold iterate_start, resume.
  rewrite (Hget page_size start end_ None self w Hd). reflexivity.
Qed.

(** X10. On a client that holds no credential every accessor, the seven
    single-item ones and the four collection ones, raises
    [ValueError(no_access_token)] without a call and without touching the
    client; a consumer of any of the four generators gets that exception
    out of the first resumption, and no record. *)
Theorem nothing_works_unauthenticated :
  (forall cycle_id, refuses_unauthenticated (get_cycle_by_id cycle_id)) /\
  (forall cycle_id, refuses_unauthenticated (get_sleep_for_cycle cycle_id)) /\
  (forall cycle_id, refuses_unauthenticated (get_recovery_for_cycle cycle_id)) /\
  (forall sleep_id, refuses_unauthenticated (get_sleep_by_id sleep_id)) /\
  (forall workout_id, refuses_unauthenticated (get_workout_by_id workout_id)) /\
  refuses_unauthenticated get_body_measurement /\
  refuses_unauthenticated get_profile_basic /\
  (forall limit start end_ next_token,
      refuses_unauthenticated (get_cycle_collection limit start end_ next_token) /\
      refuses_unauthenticated (get_recovery_collection limit start end_ next_token) /\
      refuses_unauthenticated (get_sleep_collection limit start end_ next_token) /\
      refuses_unauthenticated (get_workout_collection limit start end_ next_token)) /\
  (forall start end_ page_size fuel self w,
      _token_data (auth self) = None ->
      let failed {R} : list R * Ending R * WhoopClient * World :=
        ([], Propagated (ValueError no_access_token), self, w) in
      consume (iterate_cycles start end_ page_size) (S fuel) iterate_start [] self w
      = failed /\
      consume (iterate_sleeps start end_ page_size) (S fuel) iterate_start [] self w
      = failed /\
      consume (iterate_recoveries start end_ page_size) (S fuel) iterate_start [] self w
      = failed /\
      consume (iterate_workouts start end_ page_size) (S fuel) iterate_start [] self w
      = failed).
Proof.
  repeat match goal with |- _ /\ _ => split end;
    try (intros; apply unauthenticated_accessor).
  - intros limit start end_ next_token.
    repeat split; apply unauthenticated_accessor.
  - intros start end_ page_size fuel self w Hd. cbv zeta.
    repeat split; apply unauthenticated_walk; try exact Hd;
      intros; apply unauthenticated_accessor.
Qed.

(** ** Accessors on the wire *)

Lemma gateway_then_decode {A} (validate : list (string * Json) -> option A)
    (path : string) (query : option (list (string * PVal))) :
  answers_from
    (response <- _request "GET" path query None ;;
     j <- response_json response ;;
     construct validate j)
    path query validate.
Proof.
  intros self w tok Hf c reply. unfold bind at 1.
  rewrite (request_with_fresh_token_aux "GET" path query None self w tok Hf).
  fold c. fold reply. unfold decoded.
  destruct reply as [r el|el]; [ | reflexivity ].
  destruct (is_success r); [ | reflexivity ].
  unfold_monad. simpl elapsed_of.
  destruct (body r) as [[| | | | | |kw]|]; try reflexivity.
  destruct (validate kw); reflexivity.
Qed.

(** X11. Each single-item accessor answers from one call to its own path:
    under a token that is not yet expired it makes that one [GET] without
    query string or body, returns the record the 2xx body decodes to, and
    raises [HTTPStatusError] with the status for any other status (404 for
    an unknown id), [RequestError] for a transport failure,
    [JSONDecodeError], [TypeError] or [ValidationError] for a body that does
    not decode; the client is left as it was. *)
Theorem single_item_accessors (cycle_id : Z) (id : Identifier) :
  answers_from (get_cycle_by_id cycle_id)
    ("/v2/cycle/" ++ str_of_int cycle_id) None (as_kwargs validate_Cycle) /\
  answers_from (get_sleep_for_cycle cycle_id)
    ("/v2/cycle/" ++ str_of_int cycle_id ++ "/sleep") None (as_kwargs validate_Sleep) /\
  answers_from (get_recovery_for_cycle cycle_id)
    ("/v2/activity/recovery/cycle/" ++ str_of_int cycle_id ++ "/recovery") None
    (as_kwargs validate_Recovery) /\
  answers_from (get_sleep_by_id id)
    ("/v2/activity/sleep/" ++ str_of_id id) None (as_kwargs validate_Sleep) /\
  answers_from (get_workout_by_id id)
    ("/v2/activity/workout/" ++ str_of_id id) None (as_kwargs validate_WorkoutV2) /\
  answers_from get_body_measurement
    "/v2/user/measurement/body" None (as_kwargs validate_UserBodyMeasurement) /\
  answers_from get_profile_basic
    "/v2/user/profile/basic" None (as_kwargs validate_UserBasicProfile).
Proof.
  repeat split; apply gateway_then_decode.
Qed.

Lemma collection_params_entries (limit : Z) (start end_ : option datetime)
    (next_token : option string) :
  collection_params limit start end_ next_token
  = ([("limit", PInt (Z.min limit 25))]
     ++ query_entry "start" (option_map isoformat start)
     ++ query_entry "end" (option_map isoformat end_)
     ++ query_entry "nextToken" (if truthy_opt next_token then next_token else None))%list.
Proof.
  unfold collection_params.
  destruct start, end_, next_token as [[|c t]|]; reflexivity.
Qed.

(** X12. Each collection accessor answers from one call to its own path
    whose query string is, in this order, [limit] (at most 25), then
    [start] and [end] in ISO format when they were given, then [nextToken]
    when a non-empty cursor was given; what was not given is not sent.  The
    2xx body is decoded as a page; other replies end as for the single-item
    accessors. *)
Theorem collection_accessors_on_the_wire (limit : Z) (start end_ : option datetime)
    (next_token : option string) :
  let query :=
    ([("limit", PInt (Z.min limit 25))]
     ++ query_entry "start" (option_map isoformat start)
     ++ query_entry "end" (option_map isoformat end_)
     ++ query_entry "nextToken"
          (if truthy_opt next_token then next_token else None))%list in
  answers_from (get_cycle_collection limit start end_ next_token)
    "/v2/cycle" (Some query) (PaginatedResponse_validate validate_Cycle) /\
  answers_from (get_recovery_collection limit start end_ next_token)
    "/v2/activity/recovery" (Some query) (PaginatedResponse_validate validate_Recovery) /\
  answers_from (get_sleep_collection limit start end_ next_token)
    "/v2/activity/sleep" (Some query) (PaginatedResponse_validate validate_Sleep) /\
  answers_from (get_workout_collection limit start end_ next_token)
    "/v2/activity/workout" (Some query) (PaginatedResponse_validate validate_WorkoutV2).
Proof.
  cbv zeta. rewrite <- collection_params_entries.
  repeat split; apply gateway_then_decode.
Qed.

(** ** Whole walks of the pagination driver *)

Section Walks.
Context {R : Type}.
Variable get_collection :
  Z -> option datetime -> option datetime -> option string ->
  M WhoopClient (PaginatedResponse.t R).
Variables (start end_ : option datetime) (page_size : Z).

(** X13. A consumer of an [iterate_*] generator sees it end if and only
    if the accessor returned a sequence of pages, each fetched with the
    cursor of the one before, of which exactly the last had no truthy
    cursor; the consumer has then received the records of all these pages,
    in order, and [transitions ps] resumptions were enough. *)
Theorem walk_ends_iff_pages_run_out (c : option string) (acc out : list R)
    (self self' : WhoopClient) (w w' : World) :
  ((exists fuel,
       consume (resume get_collection start end_ page_size) fuel (AtFetch c) acc self w
       = (out, Exhausted, self', w'))
   <-> (exists ps, walked get_collection start end_ page_size c self w ps self' w' /\
                   out = (acc ++ all_records ps)%list)) /\
  (forall ps n,
      walked get_collection start end_ page_size c self w ps self' w' ->
      consume (resume get_collection start end_ page_size)
        (transitions ps + n) (AtFetch c) acc self w
      = ((acc ++ all_records ps)%list, Exhausted, self', w')).
Proof.
  split; [ split | ].
  - intros [fuel Hrun].
    exact (consume_walked get_collection start end_ page_size fuel
             (AtFetch c) acc out self self' w w' Hrun).
  - intros (ps & Hw & ->). exists (transitions ps + 0)%nat.
    apply walked_consume. exact Hw.
  - intros ps n Hw. apply walked_consume. exact Hw.
Qed.

(** X14. When the accessor raises while the walk is under way, the
    exception comes out of the generator as it is; the consumer has
    received the records of every page fetched before, in order, and the
    generator is over: resumed again it ends at once, without a call. *)
Theorem walk_stops_at_first_failure (c c' : option string)
    (ps : list (PaginatedResponse.t R)) (self self1 self2 : WhoopClient)
    (w w1 w2 : World) (e : Exn) :
  paged get_collection start end_ page_size c self w ps c' self1 w1 ->
  get_collection page_size start end_ c' self1 w1 = (Raise e, self2, w2) ->
  (forall acc n,
      consume (resume get_collection start end_ page_size)
        (transitions ps + S n) (AtFetch c) acc self w
      = ((acc ++ all_records ps)%list, Propagated e, self2, w2)) /\
  resume get_collection start end_ page_size (AtFetch c') self1 w1
  = (Thrown e, Finished, self2, w2) /\
  resume get_collection start end_ page_size Finished self2 w2
  = (StopAsyncIteration, Finished, self2, w2).
Proof.
  intros Hp Hfail. split; [ | split ].
  - induction Hp as [c self w | c self w p self1 w1 ps c' self3 w3 Hget Hnt Hrest IH];
      intros acc n.
    + simpl. unfold resume. rewrite Hfail.
      unfold all_records. simpl. rewrite app_nil_r. reflexivity.
    + simpl transitions. simpl Nat.add.
      replace (List.length (PaginatedResponse.records p) + S (transitions ps) + S n)%nat
        with (List.length (PaginatedResponse.records p) + S (transitions ps + S n))%nat
        by lia.
      rewrite (consume_page get_collection start end_ page_size c p self self1 w w1
                 acc _ Hget), Hnt, (IH Hfail).
      unfold all_records. simpl. rewrite app_assoc. reflexivity.
  - unfold resume. rewrite Hfail. reflexivity.
  - reflexivity.
Qed.

End Walks.

Lemma fetch_page_success_calls {R} (validate_R : Json -> option R) (path : string)
    (query : list (string * PVal)) (self self1 : WhoopClient) (w w1 : World)
    (p : PaginatedResponse.t R) :
  fetch_page validate_R path query self w = (Return p, self1, w1) ->
  exists l, trace w1 = (trace w ++ l)%list /\ queries_of l = [query].
Proof.
  unfold fetch_page. unfold bind at 1.
  destruct (_request "GET" path (Some query) None self w) as [[ro s1] w2] eqn:Hr.
  destruct ro as [r|e]; [ | discriminate ].
  intro Hrest.
  assert (Hw : w1 = w2).
  { revert Hrest. unfold_monad.
    destruct (body r) as [[| | | | | |kw]|]; try discriminate.
    destruct (PaginatedResponse_validate validate_R kw); [ | discriminate ].
    intro H; inversion H; reflexivity. }
  subst w2. clear Hrest.
  rewrite _request_cases in Hr.
  assert (Hd : forall s0 w0 s w',
             dispatch "GET" path (Some query) None s0 w0 = (Return r, s, w') ->
             exists c, trace w' = (trace w0 ++ [c])%list /\ params c = Some query).
  { intros s0 w0 s w' H. apply dispatch_trace in H. destruct H as [_ H].
    destruct (access_token (auth s0)) as [tok|]; [ destruct (truthy tok) | ].
    - eexists. split; [ exact H | reflexivity ].
    - destruct H; discriminate.
    - destruct H; discriminate. }
  assert (Hplain : forall s0, dispatch "GET" path (Some query) None s0 w = (Return r, s1, w1) ->
             exists l, trace w1 = (trace w ++ l)%list /\ queries_of l = [query]).
  { intros s0 H. apply Hd in H. destruct H as (c & Ht & Hc).
    exists [c]. split; [ exact Ht | ]. unfold queries_of. simpl. rewrite Hc. reflexivity. }
  destruct (needs_refresh (auth self) w); [ | exact (Hplain _ Hr) ].
  destruct (refresh_token (auth self)) as [rt|]; [ | exact (Hplain _ Hr) ].
  destruct (refresh_access_token rt (auth self) w) as [[o h1] w3] eqn:Href.
  apply refresh_access_token_trace in Href. destruct Href as [Htr _].
  destruct o as [td|e]; [ | discriminate ].
  apply Hd in Hr. destruct Hr as (c & Ht & Hc).
  exists [refresh_call (auth self) rt; c]. split.
  - rewrite Ht, Htr, <- app_assoc. reflexivity.
  - unfold queries_of. simpl. rewrite Hc. reflexivity.
Qed.

Lemma walked_queries {R}
    (get_collection : Z -> option datetime -> option datetime -> option string ->
                      M WhoopClient (PaginatedResponse.t R))
    (start end_ : option datetime) (page_size : Z) :
  (forall c self w p self1 w1,
      get_collection page_size start end_ c self w = (Return p, self1, w1) ->
      exists l, trace w1 = (trace w ++ l)%list /\
                queries_of l = [collection_params page_size start end_ c]) ->
  forall c self w ps self' w',
    walked get_collection start end_ page_size c self w ps self' w' ->
    exists l, trace w' = (trace w ++ l)%list /\
              queries_of l
              = map (collection_params page_size start end_) (cursors c ps).
Proof.
  intros Hget c self w ps self' w' Hw.
  induction Hw as [c self w p self1 w1 Hg Hnt
                  |c self w p self1 w1 ps self2 w2 Hg Hnt Hrest IH].
  - apply Hget in Hg. destruct Hg as (l & Hl & Hq).
    exists l. split; [ exact Hl | exact Hq ].
  - apply Hget in Hg. destruct Hg as (l & Hl & Hq).
    destruct IH as (l2 & Hl2 & Hq2).
    exists (l ++ l2)%list. split.
    + rewrite Hl2, Hl, <- app_assoc. reflexivity.
    + unfold queries_of in *. rewrite flat_map_app, Hq, Hq2. reflexivity.
Qed.

(** X15. Over a whole walk of any of the four generators, whatever
    refreshes happen on the way, the calls that carry a query string are
    one per page, in order; each carries the caller's page size (clamped)
    and filters, the first no cursor unless the walk began with one, and
    every later one the cursor of the page before it. *)
Theorem walk_sends_each_cursor_once (start end_ : option datetime) (page_size : Z)
    (c : option string) (self self' : WhoopClient) (w w' : World) :
  (forall ps,
      walked get_cycle_collection start end_ page_size c self w ps self' w' ->
      queries_of (calls_since w w')
      = map (collection_params page_size start end_) (cursors c ps)) /\
  (forall ps,
      walked get_sleep_collection start end_ page_size c self w ps self' w' ->
      queries_of (calls_since w w')
      = map (collection_params page_size start end_) (cursors c ps)) /\
  (forall ps,
      walked get_recovery_collection start end_ page_size c self w ps self' w' ->
      queries_of (calls_since w w')
      = map (collection_params page_size start end_) (cursors c ps)) /\
  (forall ps,
      walked get_workout_collection start end_ page_size c self w ps self' w' ->
      queries_of (calls_since w w')
      = map (collection_params page_size start end_) (cursors c ps)).
Proof.
  repeat split; intros ps Hw;
    (eapply walked_queries in Hw;
     [ destruct Hw as (l & Hl & Hq); rewrite (calls_since_app _ _ _ Hl); exact Hq
     | intros c0 s0 w0 p s1 w1 Hg;
       exact (fetch_page_success_calls _ _ _ _ _ _ _ _ Hg) ]).
Qed.

(** ** Pages with nothing in them *)

(** X16. A 2xx page body that has neither [records] nor a [next_token]
    (or a null one) is an empty last page, whatever the record validator:
    under a token that is not yet expired each of the four generators ends
    after its single call and yields nothing. *)
Theorem bare_page_ends_the_walk (self : WhoopClient) (w : World) (tok : string)
    (start end_ : option datetime) (page_size : Z) (fuel : nat)
    (r : Response) (elapsed : Z) (kwargs : list (string * Json)) :
  fresh self w tok ->
  200 <= status_code r <= 299 ->
  body r = Some (JObj kwargs) ->
  dict_get "records" kwargs = None ->
  dict_get "next_token" kwargs = None \/ dict_get "next_token" kwargs = Some JNull ->
  let query := Some (collection_params page_size start end_ None) in
  let call path := resource_call self tok "GET" path query None in
  let ended {R} path : list R * Ending R * WhoopClient * World :=
    ([], Exhausted, self, after_call w (call path) elapsed) in
  (network w (trace w) (call "/v2/cycle") = Replied r elapsed ->
   consume (iterate_cycles start end_ page_size) (2 + fuel) iterate_start [] self w
   = ended "/v2/cycle") /\
  (network w (trace w) (call "/v2/activity/sleep") = Replied r elapsed ->
   consume (iterate_sleeps start end_ page_size) (2 + fuel) iterate_start [] self w
   = ended "/v2/activity/sleep") /\
  (network w (trace w) (call "/v2/activity/recovery") = Replied r elapsed ->
   consume (iterate_recoveries start end_ page_size) (2 + fuel) iterate_start [] self w
   = ended "/v2/activity/recovery") /\
  (network w (trace w) (call "/v2/activity/workout") = Replied r elapsed ->
   consume (iterate_workouts start end_ page_size) (2 + fuel) iterate_start [] self w
   = ended "/v2/activity/workout").
Proof.
  intros Hf Hst Hbody Hrec Hnt. cbv zeta.
  assert (Hok : is_success r = true).
  { unfold is_success. apply andb_true_iff. split; apply Z.leb_le; lia. }
  assert (Hpage : forall R (v : Json -> option R),
             PaginatedResponse_validate v kwargs
             = Some {| PaginatedResponse.records := [];
                       PaginatedResponse.next_token := None |}).
  { intros R v. unfold PaginatedResponse_validate, list_field, optional.
    rewrite Hrec. destruct Hnt as [-> | ->]; reflexivity. }
  assert (Hget : forall R (v : Json -> option R) path,
             network w (trace w)
               (resource_call self tok "GET" path
                  (Some (collection_params page_size start end_ None)) None)
             = Replied r elapsed ->
             fetch_page v path (collection_params page_size start end_ None) self w
             = (Return {| PaginatedResponse.records := [];
                          PaginatedResponse.next_token := None |}, self,
                after_call w
                  (resource_call self tok "GET" path
                     (Some (collection_params page_size start end_ None)) None)
                  elapsed)).
  { intros R v path Hnet.
    pose proof (gateway_then_decode (PaginatedResponse_validate v) path
                  (Some (collection_params page_size start end_ None))
                  self w tok Hf) as Hrun.
    cbv zeta in Hrun. unfold fetch_page. rewrite Hrun, Hnet.
    unfold decoded. rewrite Hok, Hbody, Hpage. reflexivity. }
  repeat split; intro Hnet;
    unfold iterate_cycles, iterate_sleeps, iterate_recoveries, iterate_workouts,
      iterate_start;
    [ exact (consume_page get_cycle_collection start end_ page_size None _ self self
               w _ [] fuel (Hget _ validate_Cycle _ Hnet))
    | exact (consume_page get_sleep_collection start end_ page_size None _ self self
               w _ [] fuel (Hget _ validate_Sleep _ Hnet))
    | exact (consume_page get_recovery_collection start end_ page_size None _ self self
               w _ [] fuel (Hget _ validate_Recovery _ Hnet))
    | exact (consume_page get_workout_collection start end_ page_size None _ self self
               w _ [] fuel (Hget _ validate_WorkoutV2 _ Hnet)) ].
Qed.

(** ** What an authorization URL determines *)

Lemma replace_app (a b : ascii) (x y : string) :
  urllib.replace a b (x ++ y) = urllib.replace a b x ++ urllib.replace a b y.
Proof.
  induction x as [|c x IH]; simpl; [ reflexivity | rewrite IH; reflexivity ].
Qed.

Lemma replace_quoter (c : ascii) :
  urllib.replace " " "+" (urllib.quoter [" "%char] c) = quote_plus_byte c.
Proof.
  destruct c as [[] [] [] [] [] [] [] []]; reflexivity.
Qed.

Lemma quote_plus_bytes (s : string) :
  urllib.quote_plus s
  = (fix go (s : string) : string :=
       match s with
       | EmptyString => EmptyString
       | String c r => quote_plus_byte c ++ go r
       end) s.
Proof.
  unfold urllib.quote_plus, urllib.quote.
  destruct (urllib.contains " " s) eqn:Hsp; simpl negb; cbv iota.
  - clear Hsp. induction s as [|c s IH]; simpl; [ reflexivity | ].
    rewrite replace_app, replace_quoter, IH. reflexivity.
  - induction s as [|c s IH]; [ reflexivity | ].
    cbn [urllib.contains] in Hsp. cbn [urllib.quote_from_bytes].
    apply orb_false_elim in Hsp. destruct Hsp as [Hc Hs].
    rewrite (IH Hs). unfold quote_plus_byte.
    rewrite (Ascii.eqb_sym c " "), Hc. reflexivity.
Qed.

Lemma unquote_plus_byte (c : ascii) (t : string) :
  unquote_plus (quote_plus_byte c ++ t) = String c (unquote_plus t).
Proof.
  destruct c as [[] [] [] [] [] [] [] []]; reflexivity.
Qed.

(** [quote_plus] loses nothing: the field can be read back. *)
Lemma unquote_quote_plus (s : string) : unquote_plus (urllib.quote_plus s) = s.
Proof.
  rewrite quote_plus_bytes.
  induction s as [|c s IH]; [ reflexivity | ].
  rewrite unquote_plus_byte, IH. reflexivity.
Qed.

Lemma quote_plus_inj (a b : string) :
  urllib.quote_plus a = urllib.quote_plus b -> a = b.
Proof.
  intro H. rewrite <- (unquote_quote_plus a), <- (unquote_quote_plus b), H.
  reflexivity.
Qed.

Lemma append_inj_l (p x y : string) : p ++ x = p ++ y -> x = y.
Proof.
  induction p as [|c p IH]; simpl; intro H; [ exact H | ].
  inversion H. auto.
Qed.

Lemma authorization_query_fields (h : OAuth2Handler) (state : option string) :
  urllib.split_on "&" (urllib.urlencode (authorization_params h state))
  = List.app
      ["response_type=code";
       "client_id=" ++ urllib.quote_plus (client_id h);
       "redirect_uri=" ++ urllib.quote_plus (redirect_uri h);
       "scope=" ++ urllib.quote_plus (String.concat " " (scopes h))]
      match state with
      | Some st => if truthy st then ["state=" ++ urllib.quote_plus st] else []
      | None => []
      end.
Proof.
  unfold authorization_params.
  destruct state as [[|c st]|]; unfold truthy; simpl dict_set;
    rewrite split_urlencode; reflexivity.
Qed.

(** X17. An authorization URL determines what it was built from: two
    handlers with the same authorization endpoint that produce the same URL
    have the same client id, the same redirect URI and the same
    space-joined scopes, and were given the same state (an empty state
    counting as none).  So no two states, and no two redirect URIs, share a
    URL. *)
Theorem authorization_url_determines_its_fields (h1 h2 : OAuth2Handler)
    (state1 state2 : option string) :
  auth_base_url h1 = auth_base_url h2 ->
  get_authorization_url h1 state1 = get_authorization_url h2 state2 ->
  client_id h1 = client_id h2 /\
  redirect_uri h1 = redirect_uri h2 /\
  String.concat " " (scopes h1) = String.concat " " (scopes h2) /\
  (if truthy_opt state1 then state1 else None)
  = (if truthy_opt state2 then state2 else None).
Proof.
  intros Hbase Hurl. unfold get_authorization_url in Hurl.
  rewrite Hbase in Hurl. apply append_inj_l in Hurl. apply append_inj_l in Hurl.
  apply (f_equal (urllib.split_on "&")) in Hurl.
  rewrite !authorization_query_fields in Hurl.
  destruct state1 as [[|c1 s1]|], state2 as [[|c2 s2]|];
    cbn [List.app truthy truthy_opt] in *; try discriminate Hurl;
    first [ injection Hurl as Hc Hr Hs Hst | injection Hurl as Hc Hr Hs ];
    apply quote_plus_inj in Hc; apply quote_plus_inj in Hr;
    apply quote_plus_inj in Hs;
    try (apply quote_plus_inj in Hst; rewrite Hst); auto.
Qed.

(** ** Paths of the accessors by id *)





(** ** From the code exchange to the first request, and refreshes that fail *)

(** X19. The authorization-code flow end to end: once [exchange_code] on
    the client's handler has succeeded with a non-empty access token that
    lives longer than the five-minute buffer, a request made right after
    makes its resource call only, under the exchanged token. *)
Theorem exchanged_token_is_used (self : WhoopClient) (w : World) (code : string)
    (r : Response) (elapsed : Z) (kwargs : list (string * Json))
    (td : TokenResponse.t) (method endpoint : string)
    (query : option (list (string * PVal))) (js : option Json) :
  network w (trace w) (exchange_call (auth self) code) = Replied r elapsed ->
  200 <= status_code r <= 299 ->
  body r = Some (JObj kwargs) ->
  TokenResponse_validate kwargs = Some td ->
  storable (clock w + elapsed) td = true ->
  truthy (TokenResponse.access_token td) = true ->
  300 < TokenResponse.expires_in td ->
  exists self1 w1 o w2,
    with_auth (exchange_code code) self w = (Return td, self1, w1) /\
    _request method endpoint query js self1 w1 = (o, self1, w2) /\
    calls_since w w2
    = [exchange_call (auth self) code;
       resource_call self (TokenResponse.access_token td) method endpoint query js].
Proof.
  intros Hnet Hst Hbody Hval Hstor Htok Hlong.
  set (w1 := after_call w (exchange_call (auth self) code) elapsed).
  set (h1 := set__token_expiry (Some (expiry_of (clock w + elapsed) td))
               (set__token_data (Some td) (auth self))).
  assert (Hok : is_success r = true).
  { unfold is_success. apply andb_true_iff. split; apply Z.leb_le; lia. }
  assert (Hex : exchange_code code (auth self) w = (Return td, h1, w1)).
  { rewrite exchange_code_cases, Hnet, decode_and_store_cases, Hok, Hbody, Hval.
    rewrite _store_token_storable. simpl clock. rewrite Hstor. reflexivity. }
  assert (Hf : fresh (set_auth h1 self) w1 (TokenResponse.access_token td)).
  { split; [ reflexivity | ]. split; [ exact Htok | ].
    unfold expired_at. simpl. apply Z.leb_gt.
    unfold expiry_of, usec_per_sec. lia. }
  pose proof (request_with_fresh_token_aux method endpoint query js
                (set_auth h1 self) w1 _ Hf) as Hreq.
  eexists (set_auth h1 self), w1, _, _.
  split; [ unfold with_auth; rewrite Hex; reflexivity | ].
  split; [ exact Hreq | ].
  apply calls_since_app. simpl. rewrite <- app_assoc. reflexivity.
Qed.

(** X20. A refresh that the token endpoint refuses is not remembered: the
    request raises the [HTTPStatusError] and leaves the client exactly as
    it was, so the next request, the token being still expired, calls the
    token endpoint again; neither request reaches the resource endpoint. *)
Theorem refused_refresh_is_tried_again (self : WhoopClient) (w : World) (rt : string)
    (r1 r2 : Response) (elapsed1 elapsed2 : Z)
    (method1 endpoint1 method2 endpoint2 : string)
    (query1 query2 : option (list (string * PVal))) (js1 js2 : option Json) :
  refresh_token (auth self) = Some rt -> rt <> "" ->
  let c := refresh_call (auth self) rt in
  let w1 := after_call w c elapsed1 in
  let w2 := after_call w1 c elapsed2 in
  is_token_expired (auth self) w = (Return true, auth self, w) ->
  is_token_expired (auth self) w1 = (Return true, auth self, w1) ->
  network w (trace w) c = Replied r1 elapsed1 ->
  network w (trace w ++ [c])%list c = Replied r2 elapsed2 ->
  ~ (200 <= status_code r1 <= 299) ->
  ~ (200 <= status_code r2 <= 299) ->
  _request method1 endpoint1 query1 js1 self w
  = (Raise (HTTPStatusError (status_code r1)), self, w1) /\
  _request method2 endpoint2 query2 js2 self w1
  = (Raise (HTTPStatusError (status_code r2)), self, w2) /\
  calls_since w w2 = [c; c].
Proof.
  intros Hrt Hne c w1 w2 Hexp Hexp1 Hnet1 Hnet2 Hbad1 Hbad2.
  assert (Hfail : forall r, ~ (200 <= status_code r <= 299) -> is_success r = false).
  { intros r Hr. unfold is_success.
    destruct (Z.leb_spec 200 (status_code r)); destruct (Z.leb_spec (status_code r) 299);
      simpl; try reflexivity; lia. }
  split; [ | split ].
  - rewrite _request_cases, (needs_refresh_true _ _ _ Hexp Hrt Hne), Hrt.
    rewrite refresh_access_token_cases. fold c. rewrite Hnet1.
    rewrite decode_and_store_cases, (Hfail r1 Hbad1).
    rewrite set_auth_same. reflexivity.
  - rewrite _request_cases, (needs_refresh_true _ _ _ Hexp1 Hrt Hne), Hrt.
    rewrite refresh_access_token_cases. fold c.
    change (network w1 (trace w1) c) with (network w (trace w ++ [c])%list c).
    rewrite Hnet2, decode_and_store_cases, (Hfail r2 Hbad2).
    rewrite set_auth_same. reflexivity.
  - apply calls_since_app. simpl. rewrite <- app_assoc. reflexivity.
Qed.

End Client.

(** * The properties at work, over concrete validators

    [strict_str] and [strict_int] stand for the library's validators, a
    resource record is kept as its JSON ([any_record]), and a caller's
    [datetime] is given by its ISO-8601 text. *)

Local Abbreviation refresh := (refresh_access_token strict_str strict_int).
Local Abbreviation exchange := (exchange_code strict_str strict_int).
Local Abbreviation request := (_request strict_str strict_int).
Local Abbreviation cycles :=
  (get_cycle_collection strict_str strict_int Json any_record string (fun s => s)).
Local Abbreviation walk_cycles :=
  (iterate_cycles strict_str strict_int Json any_record string (fun s => s)).
Local Abbreviation query_of := (collection_params string (fun s => s)).

(** ** C8: the pair of the Token Store *)

(** C8 fails on the code.  [_store_token] assigns the credential before it
    computes the expiry instant, and that computation raises
    [OverflowError] for an [expires_in] that carries the instant past year
    9999: [set_tokens("a", "r", 10**12)] on a new handler raises and leaves
    the credential set with no expiry instant; on a handler that held a
    pair it leaves the new credential with the old credential's instant.
    Neither is a pair for a credential issued at any instant Python can
    represent. *)
Theorem store_token_overflow_splits_pair :
  let w := world_of [] in
  (exists h',
      set_tokens "a" "r" (10 ^ 12) handler0 w = (Raise OverflowError, h', w) /\
      token_store h' = (Some (injected "a" "r" (10 ^ 12)), None) /\
      forall issued, 0 <= issued -> ~ paired_at issued h') /\
  (exists h',
      set_tokens "a" "r" (10 ^ 12) fresh_handler w = (Raise OverflowError, h', w) /\
      token_store h' = (Some (injected "a" "r" (10 ^ 12)), _token_expiry fresh_handler) /\
      forall issued, 0 <= issued -> ~ paired_at issued h').
Proof.
  cbv zeta. split.
  - eexists. split; [ reflexivity | ]. split; [ reflexivity | ].
    intros issued _ [H | (td & H)]; discriminate.
  - eexists. split; [ reflexivity | ]. split; [ reflexivity | ].
    intros issued Hpos [H | (td & H)]; [ discriminate | ].
    unfold token_store in H. simpl in H. inversion H as [[Htd He]].
    subst td. unfold expiry_of, injected in He. simpl in He.
    unfold t0, usec_per_sec in He. lia.
Qed.

(** ** C4: one hour, and zero seconds *)

(** The two cases of the test suite: [set_tokens(..., expires_in=3600)] on
    a new handler leaves it not expired, [expires_in=0] leaves it expired. *)
Lemma expiry_buffer_after_store_witness :
  (exists h',
      set_tokens "access" "refresh" 3600 handler0 (world_of [])
      = (Return tt, h', world_of []) /\
      is_token_expired h' (world_of []) = (Return false, h', world_of [])) /\
  (exists h',
      set_tokens "access" "refresh" 0 handler0 (world_of [])
      = (Return tt, h', world_of []) /\
      is_token_expired h' (world_of []) = (Return true, h', world_of [])).
Proof.
  split; eexists; (split; [ reflexivity | ]).
  - refine (proj1 (proj2 (proj2
              (expiry_buffer_after_store strict_str strict_int handler0 (world_of [])
                 (injected "access" "refresh" 3600) _ (world_of []) _))) _).
    + apply stores_set_tokens with (a := "access") (r := "refresh") (e := 3600);
        reflexivity.
    + simpl. lia.
  - refine (proj2 (proj2 (proj2
              (expiry_buffer_after_store strict_str strict_int handler0 (world_of [])
                 (injected "access" "refresh" 0) _ (world_of []) _))) _).
    + apply stores_set_tokens with (a := "access") (r := "refresh") (e := 0);
        reflexivity.
    + simpl. lia.
Defined.

(** ** C10: a 401 from the token endpoint *)

Lemma failed_exchange_keeps_store_witness :
  exchange "code" fresh_handler (world_of [unauthorized])
  = (Raise (HTTPStatusError 401), fresh_handler,
     after_call (world_of [unauthorized]) (exchange_call fresh_handler "code") 1000).
Proof.
  refine (proj1 (failed_exchange_keeps_store strict_str strict_int fresh_handler
                   (world_of [unauthorized]))
            "code" {| status_code := 401; body := None |} 1000 _ _).
  - reflexivity.
  - simpl. lia.
Defined.

(** ** C6: a refresh response without [refresh_token] *)

(** C6 fails on the code: the handler held ["old_refresh"], the response
    omits the field, the refresh succeeds, and the property answers [None]. *)
Lemma refresh_token_not_retained :
  let h := stale_handler in
  let w := world_of [ok_json (token_json "new_access" 3600 None)] in
  refresh_token h = Some "old_refresh" /\
  dict_get "refresh_token"
    [("access_token", JStr "new_access"); ("token_type", JStr "bearer");
     ("expires_in", JInt 3600)] = None /\
  exists td h' w',
    refresh "old_refresh" h w = (Return td, h', w') /\
    refresh_token h' = None /\
    refresh_token h' <> refresh_token h.
Proof.
  cbv zeta. split; [ reflexivity | ]. split; [ reflexivity | ].
  do 3 eexists. split; [ reflexivity | ]. split; [ reflexivity | discriminate ].
Qed.

Lemma refresh_supersedes_credential_witness :
  let h := stale_handler in
  let w := world_of [ok_json (token_json "new_access" 3600 None)] in
  let run := refresh "old_refresh" h w in
  refresh_token (snd (fst run)) = None /\
  access_token (snd (fst run)) = Some "new_access".
Proof.
  cbv zeta.
  pose proof (refresh_supersedes_credential strict_str strict_int "old_refresh"
                stale_handler
                (world_of [ok_json (token_json "new_access" 3600 None)])
                _ _ _ eq_refl) as (_ & Hr & Ha & _).
  split; [ exact Hr | exact Ha ].
Defined.

(** ** C1: the gateway *)

(** C1 fails where the refresh itself fails: the token is expired, a
    refresh token is on record, the token endpoint answers 401, and the
    request ends in that [HTTPStatusError], not in
    [ValueError(no_access_token)]; no resource call is made.  It also fails
    for a refresh token that is on record but empty: the token is expired,
    yet no refresh call precedes the resource call. *)
Lemma failed_refresh_surfaces_as_is :
  (let self := client_of stale_handler in
   let w := world_of [unauthorized] in
   is_token_expired (auth self) w = (Return true, auth self, w) /\
   refresh_token (auth self) = Some "old_refresh" /\
   fst (fst (refresh "old_refresh" (auth self) w)) = Raise (HTTPStatusError 401) /\
   (exists self' w',
       request "GET" "/v2/user/profile/basic" None None self w
       = (Raise (HTTPStatusError 401), self', w') /\
       calls_since w w' = [refresh_call (auth self) "old_refresh"]) /\
   fst (fst (request "GET" "/v2/user/profile/basic" None None self w))
   <> Raise (ValueError no_access_token)) /\
  (let self := client_of (handler_with "old_access" (Some "") 0) in
   let w := world_of [ok_json (JObj [])] in
   is_token_expired (auth self) w = (Return true, auth self, w) /\
   refresh_token (auth self) = Some "" /\
   exists o w',
     request "GET" "/v2/user/profile/basic" None None self w = (o, self, w') /\
     calls_since w w'
     = [resource_call self "old_access" "GET" "/v2/user/profile/basic" None None]).
Proof.
  cbv zeta. split.
  - repeat split.
    + do 2 eexists. split; reflexivity.
    + discriminate.
  - split; [ reflexivity | ]. split; [ reflexivity | ].
    do 2 eexists. split; [ vm_compute; reflexivity | reflexivity ].
Qed.

(** An expired token, a refresh that succeeds, then the resource call. *)
Lemma gateway_refresh_then_dispatch_witness :
  let self := client_of stale_handler in
  let w := world_of [ok_json (token_json "new_access" 3600 (Some "new_refresh"));
                     ok_json (JObj [])] in
  let refreshed := refresh "old_refresh" (auth self) w in
  exists o w',
    request "GET" "/v2/user/profile/basic" None None self w
    = (o, set_auth (snd (fst refreshed)) self, w') /\
    trace w'
    = [refresh_call (auth self) "old_refresh";
       resource_call self "new_access" "GET" "/v2/user/profile/basic" None None].
Proof.
  cbv zeta.
  pose proof (proj1 (gateway_refresh_then_dispatch strict_str strict_int
                       "GET" "/v2/user/profile/basic" None None
                       (client_of stale_handler)
                       (world_of [ok_json (token_json "new_access" 3600 (Some "new_refresh"));
                                  ok_json (JObj [])]))
                "old_refresh" _ _ _ eq_refl eq_refl
                ltac:(discriminate) eq_refl) as [_ H].
  exact H.
Defined.

(** ** C9: only an access token is injected *)

Lemma one_injected_token_is_ignored_witness :
  exists self,
    WhoopClient_init "cid" "secret" "http://localhost:8000/callback"
      (Some "access") None None 30%float (world_of [])
    = (Return self, world_of []) /\
    access_token (auth self) = None /\
    request "GET" "/v2/user/profile/basic" None None self (world_of [])
    = (Raise (ValueError no_access_token), self, world_of []).
Proof.
  destruct (proj1 (one_injected_token_is_ignored strict_str strict_int
                     "cid" "secret" "http://localhost:8000/callback"
                     (Some "access") None None 30%float (world_of [])))
    as (self & Hinit & _ & Hat & _ & Hreq).
  - right. split; [ discriminate | reflexivity ].
  - exists self. split; [ exact Hinit | ]. split; [ exact Hat | apply Hreq ].
Defined.

(** ** C5: a limit of 100 *)

Lemma limit_is_clamped_witness :
  dict_get "limit" (query_of 100 None None None) = Some (PInt 25) /\
  cycles 100 None None None = cycles 25 None None None.
Proof.
  pose proof (limit_is_clamped strict_str strict_int Json Json Json Json
                any_record any_record any_record any_record string (fun s => s)
                100 None None None) as (Hq & _ & Hsame & _).
  split; [ exact Hq | ].
  apply Hsame. lia.
Defined.

(** ** C2: two pages *)

Lemma two_page_walk_witness :
  let self := client_of fresh_handler in
  let w := world_of [ok_json (page_json [JStr "A"; JStr "B"] (JStr "t2"));
                     ok_json (page_json [JStr "C"] JNull)] in
  exists w',
    consume (walk_cycles None None 25) 7 iterate_start [] self w
    = ([JStr "A"; JStr "B"; JStr "C"], Exhausted, self, w') /\
    calls_since w w'
    = [resource_call self "access" "GET" "/v2/cycle" (Some [("limit", PInt 25)]) None;
       resource_call self "access" "GET" "/v2/cycle"
         (Some [("limit", PInt 25); ("nextToken", PStr "t2")]) None].
Proof.
  cbv zeta.
  destruct (two_page_walk strict_str strict_int Json any_record string (fun s => s)
              (client_of fresh_handler)
              (world_of [ok_json (page_json [JStr "A"; JStr "B"] (JStr "t2"));
                         ok_json (page_json [JStr "C"] JNull)])
              "access" (t0 + 3600 * usec_per_sec)
              (JStr "A") (JStr "B") (JStr "C")
              (page_fields [JStr "A"; JStr "B"] (JStr "t2"))
              (page_fields [JStr "C"] JNull)
              1000 1000 None None 25 7%nat)
    as (w' & Hrun & Hcalls & _); try reflexivity.
  exists w'. split; [ exact Hrun | exact Hcalls ].
Defined.

(** ** C3: cursors and empty pages *)

(** C3 fails for a cursor that is present but empty: the first page has no
    records and the cursor [""], a non-null string; the generator ends
    after that single call although the server had a second page. *)
Lemma empty_cursor_ends_the_walk :
  let self := client_of fresh_handler in
  let w := world_of [ok_json (page_json [] (JStr ""));
                     ok_json (page_json [JStr "C"] JNull)] in
  (exists w1,
      cycles 25 None None None self w
      = (Return {| PaginatedResponse.records := [];
                   PaginatedResponse.next_token := Some "" |}, self, w1)) /\
  Some "" <> @None string /\
  exists w',
    consume (walk_cycles None None 25) 7 iterate_start [] self w
    = ([], Exhausted, self, w') /\
    List.length (calls_since w w') = 1%nat.
Proof.
  cbv zeta. split; [ | split ].
  - eexists. reflexivity.
  - discriminate.
  - eexists. split; reflexivity.
Qed.

(** An empty page with the cursor ["t2"]: the walk goes on to fetch the
    page at ["t2"]. *)
Lemma termination_by_cursor_only_witness :
  let self := client_of fresh_handler in
  let w := world_of [ok_json (page_json [] (JStr "t2"));
                     ok_json (page_json [JStr "C"] JNull)] in
  let w1 := snd (cycles 25 None None None self w) in
  consume (walk_cycles None None 25) 7 iterate_start [] self w
  = consume (walk_cycles None None 25) 5 (AtFetch (Some "t2")) [] self w1.
Proof.
  cbv zeta.
  refine (proj1 (proj2 ((proj2 (proj2
            (termination_by_cursor_only string
               (get_cycle_collection strict_str strict_int Json any_record string
                  (fun s => s))
               None None 25 None
               {| PaginatedResponse.records := [];
                  PaginatedResponse.next_token := Some "t2" |}
               (client_of fresh_handler) (client_of fresh_handler)
               (world_of [ok_json (page_json [] (JStr "t2"));
                          ok_json (page_json [JStr "C"] JNull)])
               _ [] 5%nat _))) "t2" _ _))).
  - reflexivity.
  - reflexivity.
  - discriminate.
Defined.

(** ** C7: the state parameter *)

(** C7 fails for a state that is supplied but empty: the URL has no
    [state] field, and is the URL built without a state. *)
Lemma empty_state_is_left_out :
  Some "" <> @None string /\
  ~ In "state" (urllib.query_keys
                  (urllib.urlencode (authorization_params handler0 (Some "")))) /\
  get_authorization_url handler0 (Some "") = get_authorization_url handler0 None.
Proof.
  split; [ discriminate | ]. split; [ | reflexivity ].
  simpl. intros [H | [H | [H | [H | []]]]]; discriminate.
Qed.

(** The URL of the handler of the test suite. *)
Lemma authorization_url_fields_witness :
  get_authorization_url
    (OAuth2Handler_init "test_client" "test_secret" "http://localhost:8000/callback"
       (Some ["read:profile"; "read:sleep"]))
    (Some "test_state")
  = "https://api.prod.whoop.com/oauth/oauth2/auth?response_type=code&client_id=test_client&redirect_uri=http%3A%2F%2Flocalhost%3A8000%2Fcallback&scope=read%3Aprofile+read%3Asleep&state=test_state".
Proof.
  exact (proj1 (authorization_url_fields
                  (OAuth2Handler_init "test_client" "test_secret"
                     "http://localhost:8000/callback"
                     (Some ["read:profile"; "read:sleep"]))
                  (Some "test_state"))).
Defined.

(** * The further properties at work *)

Local Abbreviation cycle_by_id := (get_cycle_by_id strict_str strict_int Json any_record).

(** ** X1: fifty-five minutes later *)

Lemma expiry_threshold_witness :
  exists h',
    set_tokens "access" "refresh" 3600 handler0 (world_of [])
    = (Return tt, h', world_of []) /\
    is_token_expired h' (world_at (t0 + 3300 * usec_per_sec - 1) [])
    = (Return false, h', world_at (t0 + 3300 * usec_per_sec - 1) []) /\
    is_token_expired h' (world_at (t0 + 3300 * usec_per_sec) [])
    = (Return true, h', world_at (t0 + 3300 * usec_per_sec) []).
Proof.
  eexists. split; [ reflexivity | ].
  assert (Hs : stores strict_str strict_int handler0 (world_of [])
                 (injected "access" "refresh" 3600)
                 (set__token_expiry (Some (expiry_of t0 (injected "access" "refresh" 3600)))
                    (set__token_data (Some (injected "access" "refresh" 3600)) handler0))
                 (world_of []))
    by (apply stores_set_tokens with (a := "access") (r := "refresh") (e := 3600);
        reflexivity).
  split.
  - exact (expiry_threshold strict_str strict_int _ _ _ _ _ Hs
             (world_at (t0 + 3300 * usec_per_sec - 1) [])).
  - exact (expiry_threshold strict_str strict_int _ _ _ _ _ Hs
             (world_at (t0 + 3300 * usec_per_sec) [])).
Defined.

(** ** X3, X4: answers of the token endpoint *)

Lemma token_exchange_success_witness :
  exists h',
    exchange "code" handler0 (world_of [ok_json (JObj (token_fields "tok" 3600 "rt"))])
    = (Return (injected "tok" "rt" 3600), h',
       after_call (world_of [ok_json (JObj (token_fields "tok" 3600 "rt"))])
         (exchange_call handler0 "code") 1000) /\
    access_token h' = Some "tok".
Proof.
  eexists. split.
  - refine (proj1 (token_exchange_success strict_str strict_int handler0
                     (world_of [ok_json (JObj (token_fields "tok" 3600 "rt"))])
                     {| status_code := 200;
                        body := Some (JObj (token_fields "tok" 3600 "rt")) |}
                     1000 (token_fields "tok" 3600 "rt") (injected "tok" "rt" 3600) _ _ _ _) "code" _);
      try reflexivity.
    simpl. lia.
  - reflexivity.
Defined.

Lemma undecodable_token_response_witness :
  exchange "code" handler0 (world_of [ok_json (JObj [("access_token", JStr "tok")])])
  = (Raise ValidationError, handler0,
     after_call (world_of [ok_json (JObj [("access_token", JStr "tok")])])
       (exchange_call handler0 "code") 1000).
Proof.
  refine (proj2 (proj2
            (undecodable_token_response strict_str strict_int handler0
               (world_of [ok_json (JObj [("access_token", JStr "tok")])])
               (exchange "code") (exchange_call handler0 "code")
               {| status_code := 200; body := Some (JObj [("access_token", JStr "tok")]) |}
               1000 _ _ _))
            [("access_token", JStr "tok")] _ _).
  - left. exists "code". split; reflexivity.
  - reflexivity.
  - simpl. lia.
  - reflexivity.
  - right. left. reflexivity.
Defined.

(** ** X6, X7: one request *)

Lemma fresh_client_is_fresh (script : list Reply) :
  fresh (client_of fresh_handler) (world_of script) "access".
Proof. repeat split. Qed.

Lemma request_with_fresh_token_witness :
  request "GET" "/v2/cycle/1" None None (client_of fresh_handler) (world_of [not_found])
  = (Raise (HTTPStatusError 404), client_of fresh_handler,
     after_call (world_of [not_found])
       (resource_call (client_of fresh_handler) "access" "GET" "/v2/cycle/1" None None)
       1000).
Proof.
  exact (request_with_fresh_token strict_str strict_int "GET" "/v2/cycle/1" None None
           (client_of fresh_handler) (world_of [not_found]) "access"
           (fresh_client_is_fresh [not_found])).
Defined.

Lemma request_makes_at_most_two_calls_witness :
  let w := world_of [ok_json (JObj (token_fields "tok" 3600 "rt")); not_found] in
  let run := request "GET" "/v2/cycle/1" None None (client_of stale_handler) w in
  exists pre post,
    calls_since w (snd run) = (pre ++ post)%list /\
    (pre = [] \/
     exists rt, refresh_token (auth (client_of stale_handler)) = Some rt /\
                pre = [refresh_call (auth (client_of stale_handler)) rt]) /\
    (post = [] \/
     exists tok, access_token (auth (snd (fst run))) = Some tok /\
                 post = [resource_call (client_of stale_handler) tok
                           "GET" "/v2/cycle/1" None None]) /\
    (post = [] -> exists e, fst (fst run) = Raise e).
Proof.
  cbv zeta.
  apply (request_makes_at_most_two_calls strict_str strict_int
           "GET" "/v2/cycle/1" None None (client_of stale_handler)).
  destruct (request "GET" "/v2/cycle/1" None None (client_of stale_handler) _)
    as [[o s] w']; reflexivity.
Defined.

(** ** X8, X19, X20: requests in a row *)

Lemma refreshed_token_is_reused_witness :
  let self := client_of stale_handler in
  let w := world_of [ok_json (JObj (token_fields "tok" 3600 "rt"));
                     ok_json (JObj []); ok_json (JObj [])] in
  exists o1 self1 w2 o2 w3,
    request "GET" "/v2/user/profile/basic" None None self w = (o1, self1, w2) /\
    request "GET" "/v2/user/measurement/body" None None self1 w2 = (o2, self1, w3) /\
    access_token (auth self1) = Some "tok" /\
    calls_since w w3
    = [refresh_call (auth self) "old_refresh";
       resource_call self "tok" "GET" "/v2/user/profile/basic" None None;
       resource_call self "tok" "GET" "/v2/user/measurement/body" None None].
Proof.
  cbv zeta.
  refine (refreshed_token_is_reused strict_str strict_int (client_of stale_handler)
            (world_of [ok_json (JObj (token_fields "tok" 3600 "rt"));
                       ok_json (JObj []); ok_json (JObj [])])
            "old_refresh"
            {| status_code := 200; body := Some (JObj (token_fields "tok" 3600 "rt")) |}
            1000 (token_fields "tok" 3600 "rt") (injected "tok" "rt" 3600)
            "GET" "/v2/user/profile/basic" "GET" "/v2/user/measurement/body"
            None None None None _ _ _ _ _ _ _ _ _ _); try reflexivity.
  - discriminate.
  - simpl. lia.
Defined.

Lemma exchanged_token_is_used_witness :
  let self := client_of handler0 in
  let w := world_of [ok_json (JObj (token_fields "tok" 3600 "rt")); ok_json (JObj [])] in
  exists self1 w1 o w2,
    with_auth (exchange "code") self w
    = (Return (injected "tok" "rt" 3600), self1, w1) /\
    request "GET" "/v2/user/profile/basic" None None self1 w1 = (o, self1, w2) /\
    calls_since w w2
    = [exchange_call (auth self) "code";
       resource_call self "tok" "GET" "/v2/user/profile/basic" None None].
Proof.
  cbv zeta.
  refine (exchanged_token_is_used strict_str strict_int (client_of handler0)
            (world_of [ok_json (JObj (token_fields "tok" 3600 "rt")); ok_json (JObj [])])
            "code"
            {| status_code := 200; body := Some (JObj (token_fields "tok" 3600 "rt")) |}
            1000 (token_fields "tok" 3600 "rt") (injected "tok" "rt" 3600)
            "GET" "/v2/user/profile/basic" None None _ _ _ _ _ _ _); try reflexivity.
  simpl. lia.
Defined.

Lemma refused_refresh_is_tried_again_witness :
  let self := client_of stale_handler in
  let w := world_of [unauthorized; server_error] in
  let c := refresh_call (auth self) "old_refresh" in
  request "GET" "/v2/cycle" None None self w
  = (Raise (HTTPStatusError 401), self, after_call w c 1000) /\
  request "GET" "/v2/cycle" None None self (after_call w c 1000)
  = (Raise (HTTPStatusError 500), self, after_call (after_call w c 1000) c 1000) /\
  calls_since w (after_call (after_call w c 1000) c 1000) = [c; c].
Proof.
  cbv zeta.
  refine (refused_refresh_is_tried_again strict_str strict_int (client_of stale_handler)
            (world_of [unauthorized; server_error]) "old_refresh"
            {| status_code := 401; body := None |}
            {| status_code := 500; body := None |} 1000 1000
            "GET" "/v2/cycle" "GET" "/v2/cycle" None None None None
            _ _ _ _ _ _ _ _); try reflexivity.
  - discriminate.
  - simpl. lia.
  - simpl. lia.
Defined.

(** ** X9: an injected session *)

Lemma injected_session_witness :
  exists self,
    WhoopClient_init "cid" "secret" "http://localhost:8000/callback"
      (Some "access") (Some "refresh") None 30%float (world_of [not_found])
    = (Return self, world_of [not_found]) /\
    access_token (auth self) = Some "access" /\
    exists o w',
      request "GET" "/v2/cycle/1" None None self (world_of [not_found]) = (o, self, w') /\
      calls_since (world_of [not_found]) w'
      = [resource_call self "access" "GET" "/v2/cycle/1" None None].
Proof.
  destruct (injected_session strict_str strict_int "cid" "secret"
              "http://localhost:8000/callback" "access" "refresh" None 30%float
              (world_of [not_found]))
    as (self & Hinit & Hat & _ & Hreq & _).
  - discriminate.
  - discriminate.
  - discriminate.
  - reflexivity.
  - exists self. split; [ exact Hinit | ]. split; [ exact Hat | apply Hreq ].
Defined.

(** ** X14: a server error on the second page *)

Lemma walk_stops_at_first_failure_witness :
  let self := client_of fresh_handler in
  let w := world_of [ok_json (page_json [JStr "A"; JStr "B"] (JStr "t2")); server_error] in
  let call1 := resource_call self "access" "GET" "/v2/cycle" (Some [("limit", PInt 25)]) None in
  let call2 := resource_call self "access" "GET" "/v2/cycle"
                 (Some [("limit", PInt 25); ("nextToken", PStr "t2")]) None in
  let w2 := after_call (after_call w call1 1000) call2 1000 in
  consume (walk_cycles None None 25) 5 iterate_start [] self w
  = ([JStr "A"; JStr "B"], Propagated (HTTPStatusError 500), self, w2) /\
  walk_cycles None None 25 Finished self w2 = (StopAsyncIteration, Finished, self, w2).
Proof.
  cbv zeta.
  set (self := client_of fresh_handler).
  set (w := world_of [ok_json (page_json [JStr "A"; JStr "B"] (JStr "t2")); server_error]).
  set (w1 := after_call w
               (resource_call self "access" "GET" "/v2/cycle"
                  (Some [("limit", PInt 25)]) None) 1000).
  set (p := {| PaginatedResponse.records := [JStr "A"; JStr "B"];
               PaginatedResponse.next_token := Some "t2" |}).
  assert (Hp : paged string cycles None None 25 None self w [p] (Some "t2") self w1).
  { apply paged_more with (self1 := self) (w1 := w1);
      [ reflexivity | reflexivity | apply paged_none ]. }
  assert (Hfail : cycles 25 None None (Some "t2") self w1
                  = (Raise (HTTPStatusError 500), self,
                     after_call w1
                       (resource_call self "access" "GET" "/v2/cycle"
                          (Some [("limit", PInt 25); ("nextToken", PStr "t2")]) None)
                       1000))
    by reflexivity.
  destruct (walk_stops_at_first_failure string cycles None None 25 None (Some "t2")
              [p] self self self w w1 _ (HTTPStatusError 500) Hp Hfail)
    as (Hrun & _ & Hover).
  split; [ exact (Hrun [] 0%nat) | exact Hover ].
Defined.

(** ** X16: a page body [{}] *)

Lemma bare_page_ends_the_walk_witness :
  let self := client_of fresh_handler in
  let w := world_of [ok_json (JObj [])] in
  consume (walk_cycles None None 25) 2 iterate_start [] self w
  = ([], Exhausted, self,
     after_call w
       (resource_call self "access" "GET" "/v2/cycle" (Some [("limit", PInt 25)]) None)
       1000).
Proof.
  cbv zeta.
  refine (proj1 (bare_page_ends_the_walk strict_str strict_int Json Json Json Json
                   any_record any_record any_record any_record string (fun s => s)
                   (client_of fresh_handler) (world_of [ok_json (JObj [])]) "access"
                   None None 25 0%nat
                   {| status_code := 200; body := Some (JObj []) |} 1000 []
                   (fresh_client_is_fresh _) _ _ _ _) _); try reflexivity.
  - simpl. lia.
  - left. reflexivity.
Defined.

(** ** X17: an absent and an empty [state] *)

Lemma authorization_url_determines_its_fields_witness :
  get_authorization_url handler0 None = get_authorization_url handler0 (Some "") /\
  (if truthy_opt (@None string) then None else None)
  = (if truthy_opt (Some "") then Some "" else None).
Proof.
  split; [ reflexivity | ].
  exact (proj2 (proj2 (proj2
           (authorization_url_determines_its_fields handler0 handler0 None (Some "")
              eq_refl eq_refl)))).
Defined.

(** ** X15: the queries of a two-page walk *)

Lemma walk_sends_each_cursor_once_witness :
  let self := client_of fresh_handler in
  let w := world_of [ok_json (page_json [JStr "A"; JStr "B"] (JStr "t2"));
                     ok_json (page_json [JStr "C"] JNull)] in
  exists w',
    consume (walk_cycles None None 25) 7 iterate_start [] self w
    = ([JStr "A"; JStr "B"; JStr "C"], Exhausted, self, w') /\
    queries_of (calls_since w w')
    = [[("limit", PInt 25)]; [("limit", PInt 25); ("nextToken", PStr "t2")]].
Proof.
  cbv zeta. eexists. split; [ reflexivity | ].
  refine (proj1 (walk_sends_each_cursor_once strict_str strict_int Json Json Json Json
                   any_record any_record any_record any_record string (fun s => s)
                   None None 25 None (client_of fresh_handler) (client_of fresh_handler)
                   (world_of [ok_json (page_json [JStr "A"; JStr "B"] (JStr "t2"));
                              ok_json (page_json [JStr "C"] JNull)]) _)
            [ {| PaginatedResponse.records := [JStr "A"; JStr "B"];
                 PaginatedResponse.next_token := Some "t2" |};
              {| PaginatedResponse.records := [JStr "C"];
                 PaginatedResponse.next_token := None |} ] _).
  eapply walked_more; [ reflexivity | reflexivity | ].
  eapply walked_last; reflexivity.
Defined.
